(** * web-scraping-demo: a shallow embedding of the crawl-and-extract pipeline

    The development follows the JavaScript sources file by file:
    [errors.js], [crawler.js], [selectors.js], [dataExtractors.js],
    [commonUtils.js], [scrapingUtils.js] and [index.js].

    Conventions.
    - A JavaScript string is a [string]: a sequence of code units below 256.
    - A value that is a string or [undefined] is an [option string]
      ([None] is [undefined]); an object or [null] is an [option] as well.
    - Synchronous code that may throw lives in [Res]; asynchronous code, which
      also logs and touches the file system, lives in [M].
    - Everything outside the repository (axios, cheerio's parser, the WHATWG
      [URL] constructor, [path], [fs], the clock, the environment) is a field
      of the record [World]. *)

From stdpp Require Import base option list strings gmap pretty.
From Stdlib Require Import ZArith Ascii.

(** ** JavaScript values and primitives *)

(** A string or [undefined]. *)
Definition JsStr := option string.

(** Interpolation [`${v}`] in a template literal. *)
Definition tpl (v : JsStr) : string := default "undefined" v.

(** [ToBoolean]: what [if (v)] and [!v] test. *)
Class ToBoolean (A : Type) := truthy : A → bool.

(** A string or [undefined] is truthy when it is a non-empty string. *)
Global Instance JsStr_truthy : ToBoolean JsStr := λ v,
  match v with
  | Some s => negb (String.eqb s "")
  | None => false
  end.

Definition code (c : ascii) : N := N_of_ascii c.

Definition in_range (lo hi : N) (c : ascii) : bool :=
  (lo <=? code c)%N && (code c <=? hi)%N.

(** [\d], [[A-Z]], [[a-z]] and, under the [i] flag, [[a-z0-9]]. *)
Definition is_digit : ascii → bool := in_range 48 57.
Definition is_upper : ascii → bool := in_range 65 90.
Definition is_lower : ascii → bool := in_range 97 122.
Definition is_alnum_i (c : ascii) : bool := is_lower c || is_upper c || is_digit c.

(** White space and line terminators of ECMAScript below 256:
    TAB, LF, VT, FF, CR, SP and NBSP. *)
Definition is_js_space (c : ascii) : bool :=
  in_range 9 13 c || (code c =? 32)%N || (code c =? 160)%N.

Fixpoint drop_while {A} (p : A → bool) (l : list A) : list A :=
  match l with
  | [] => []
  | x :: l' => if p x then drop_while p l' else l
  end.

(** [String.prototype.trim]. *)
Definition trim (s : string) : string :=
  String.string_of_list_ascii
    (rev (drop_while is_js_space (rev (drop_while is_js_space (String.list_ascii_of_string s))))).

(** A regular expression [/R$/] without the [m] flag, given by the test [R]
    that the whole rest of the input is matched by [R]: [search_to_end R s]
    is the leftmost match, the first suffix of [s] that [R] accepts; [None]
    is the [null] that [String.prototype.match] returns. *)
Fixpoint search_to_end (R : list ascii → bool) (s : list ascii) : option (list ascii) :=
  if R s then Some s
  else match s with
       | [] => None
       | _ :: s' => search_to_end R s'
       end.

Definition plus (p : ascii → bool) (s : list ascii) : bool :=
  match s with
  | [] => false
  | _ => forallb p s
  end.

(** [/\d+$/] *)
Definition re_page_count : list ascii → bool := plus is_digit.

(** [/[A-Z][a-z]+$/] *)
Definition re_rating (s : list ascii) : bool :=
  match s with
  | c :: r => is_upper c && plus is_lower r
  | [] => false
  end.

(** [/(?!\.)[a-z0-9]+$/i]: the lookahead rejects a position at a dot. *)
Definition re_extension (s : list ascii) : bool :=
  match s with
  | c :: _ => negb (Ascii.eqb c ".") && plus is_alnum_i s
  | [] => false
  end.

(** [s.match(re)]: the match array is represented by its element 0. *)
Definition js_match (R : list ascii → bool) (s : string) : option string :=
  String.string_of_list_ascii <$> search_to_end R (String.list_ascii_of_string s).

(** [Number(s)] on a string of decimal digits, as an exact natural number. *)
Definition Number (s : string) : N :=
  foldl (λ acc c, 10 * acc + (code c - 48))%N 0%N (String.list_ascii_of_string s).

(** ** errors.js *)

Inductive JsError :=
  | UnsuccessfulResponseError (requestUrl : JsStr)
  | NoResponseError (requestUrl : JsStr)
  | FileWriteError (filePath : string)
  | CatalogPageCountNotFoundError
  | BookCategoryNotFoundError (bookPageUrl : JsStr)
  | BookTitleNotFoundError (bookPageUrl : JsStr)
  | BookRatingNotFoundError (bookPageUrl : JsStr)
  | BookDescriptionNotFoundError (bookPageUrl : JsStr)
  | BookProductInfoNotFoundError (bookPageUrl : JsStr)
  | BookImageURLFoundError (bookPageUrl : JsStr)
  (* errors of the language and of the libraries, with the engine's message *)
  | TypeError (msg : string)
  | ReferenceError (msg : string)
  | AxiosError (msg : string)
  | SystemError (msg : string).

Global Instance JsError_eq_dec : EqDecision JsError.
Proof. solve_decision. Defined.

(** [error.message] *)
Definition message (e : JsError) : string :=
  match e with
  | UnsuccessfulResponseError u => "Unsuccessful network response returned for " +:+ tpl u
  | NoResponseError u => "No response received for the request " +:+ tpl u
  | FileWriteError p => "Data could not be written to " +:+ p
  | CatalogPageCountNotFoundError => "Could not locate or extract total catalog page count"
  | BookCategoryNotFoundError u => "Could not locate the book category breadcrumb on " +:+ tpl u
  | BookTitleNotFoundError u => "Could not locate the book title on " +:+ tpl u
  | BookRatingNotFoundError u => "Could not locate the book rating on " +:+ tpl u
  | BookDescriptionNotFoundError u => "Could not locate the book description on " +:+ tpl u
  | BookProductInfoNotFoundError u => "Could not locate the book product info on " +:+ tpl u
  | BookImageURLFoundError u => "Could not locate the book image URL on " +:+ tpl u
  | TypeError m | ReferenceError m | AxiosError m | SystemError m => m
  end.

(** ** Synchronous code: a value or a thrown error *)

Inductive Res (A : Type) :=
  | Ok (a : A)
  | Throw (e : JsError).
Arguments Ok {A} a.
Arguments Throw {A} e.

Global Instance Res_eq_dec {A} `{EqDecision A} : EqDecision (Res A).
Proof. solve_decision. Defined.

Global Instance Res_ret : MRet Res := @Ok.
Global Instance Res_bind : MBind Res := λ A B f r,
  match r with
  | Ok a => f a
  | Throw e => Throw e
  end.

Global Instance Res_fmap : FMap Res := λ A B f r,
  match r with
  | Ok a => Ok (f a)
  | Throw e => Throw e
  end.

(** [try { body } catch (error) { handler }] *)
Definition try_catch {A} (body : Res A) (handler : JsError → Res A) : Res A :=
  match body with
  | Ok a => Ok a
  | Throw e => handler e
  end.

(** A method call [v.name(...)] or property read [v.name] on a value that may
    be [undefined] or [null] (written [what] in the engine's message). *)
Definition member {A} (what name : string) (v : option A) : Res A :=
  match v with
  | Some a => Ok a
  | None => Throw (TypeError ("Cannot read properties of " +:+ what +:+ " (reading '" +:+ name +:+ "')"))
  end.

(** Reading the identifier [name] inside a function whose parameters are
    [params]. The functions modelled here read no other local variable this
    way, and neither their modules (whose top-level bindings are the imports
    and the exported functions) nor the global object bind the names they
    read, so that a name that is not a parameter is unresolvable. *)
Definition identifier (params : list (string * JsStr)) (name : string) : Res JsStr :=
  match list_find (λ p, p.1 = name) params with
  | Some (_, (_, v)) => Ok v
  | None => Throw (ReferenceError (name +:+ " is not defined"))
  end.

(** ** cheerio *)

(** An element with its attributes and its text content. *)
Record Element := {
  attribs : gmap string string;
  text_content : string;
}.

(** A selection [$(selector)]: the matched elements in document order. *)
Definition Cheerio := list Element.

(** A loaded document [$]: the selection of every selector. *)
Definition Document := string → Cheerio.

(** A selection is an object, and every object is truthy. *)
Global Instance Cheerio_truthy : ToBoolean Cheerio := λ _, true.

(** [.eq(i)]: a negative index counts from the end, and an index out of range
    gives the empty selection. *)
Definition cheerio_eq (i : Z) (sel : Cheerio) : Cheerio :=
  let j := if (i <? 0)%Z then (Z.of_nat (length sel) + i)%Z else i in
  if (j <? 0)%Z then []
  else match sel !! Z.to_nat j with
       | Some e => [e]
       | None => []
       end.

(** [.attr(name)]: the attribute of the first element, or [undefined]. *)
Definition cheerio_attr (name : string) (sel : Cheerio) : JsStr :=
  e ← head sel; attribs e !! name.

(** [.text()]: the text of all elements of the selection, concatenated. *)
Definition cheerio_text (sel : Cheerio) : string :=
  foldr (λ e acc, text_content e +:+ acc) "" sel.

(** ** selectors.js *)

Definition paginationSelector := "li.current".
Definition bookAnchorSelector := ".product_pod h3 a".

Module bookPageSelectors.
Definition breadcrumbs := ".breadcrumb li".
Definition title := ".product_main > h1".
Definition rating := ".star-rating".
Definition description := "#product_description + p".
Definition productInfoKeys := "th".
Definition productInfoData := "td".
Definition image := ".thumbnail img".
End bookPageSelectors.

(** ** The scraped record, and the world around the program *)

(** One row of the product information table. *)
Record InfoItem := {
  key : JsStr;
  value : JsStr;
}.

Global Instance InfoItem_eq_dec : EqDecision InfoItem.
Proof. solve_decision. Defined.

Record BookInfo := {
  url : JsStr;
  category : string;
  title : string;
  rating : string;
  description : string;
  productInfo : list InfoItem;
  imageUrl : string;
}.

Global Instance BookInfo_eq_dec : EqDecision BookInfo.
Proof. solve_decision. Defined.

(** A scraped record or [null]/[undefined]: only the record is truthy. *)
Global Instance BookInfo_truthy : ToBoolean (option BookInfo) := λ v,
  match v with
  | Some _ => true
  | None => false
  end.

(** An asset descriptor [{ url, identifier }]. *)
Module ImageDatum.
Record t := {
  url : string;
  identifier : JsStr;
}.
End ImageDatum.

(** What [axios.get] settles to once its retries are used up. *)
Inductive AxiosOutcome (D : Type) :=
  | AxiosRejects (e : JsError)
  | AxiosResponse (status : Z) (data : D).
Arguments AxiosRejects {D} e.
Arguments AxiosResponse {D} status data.

(** The bytes of a downloaded asset. *)
Definition Stream := string.

(** The result of [getDuration] for a job. *)
Record Duration := {
  hours : N;
  minutes : N;
  seconds : N;
}.

Record World := {
  (** [axios.get(url)] and [axios.get(url, { responseType: "stream" })] *)
  axios_get : JsStr → AxiosOutcome string;
  axios_get_stream : JsStr → AxiosOutcome Stream;
  (** [cheerio.load(html)] *)
  cheerio_load : string → Document;
  (** [new URL(input, base).href]; the constructor throws a [TypeError] *)
  URL_href : string → JsStr → Res string;
  (** [path.resolve(dir, name)] and [path.dirname(file)] *)
  path_resolve : string → string → string;
  path_dirname : string → string;
  (** whether [mkdir(dir, { recursive: true })], [writeFile(file, ...)] and
      the write stream on [file] succeed *)
  mkdir_ok : string → bool;
  writeFile_ok : string → bool;
  stream_ok : string → bool;
  (** [process.env.DATA_DIR] *)
  env_DATA_DIR : JsStr;
  (** the time measured around the scraping job and around the download job *)
  scraping_duration : Duration;
  download_duration : Duration;
}.

(** ** Asynchronous code: effects, then a value or a rejection *)

Inductive Level := Info | Warn | Error.

Inductive Effect :=
  | Log (level : Level) (msg : string)
  | Mkdir (dir : string)
  (** [writeFile(path, JSON.stringify(data), "utf8")] *)
  | WriteFile (path : string) (data : list BookInfo)
  (** the stream [s] piped into the file [path] until [finish] *)
  | Pipe (path : string) (s : Stream).

Global Instance Level_eq_dec : EqDecision Level.
Proof. solve_decision. Defined.
Global Instance Effect_eq_dec : EqDecision Effect.
Proof. solve_decision. Defined.

Record M (A : Type) := Run {
  effects : list Effect;
  outcome : Res A;
}.
Arguments Run {A} effects outcome.
Arguments effects {A} m.
Arguments outcome {A} m.

Global Instance M_ret : MRet M := λ A a, Run [] (Ok a).
Global Instance M_bind : MBind M := λ A B f m,
  match outcome m with
  | Ok a => Run (effects m ++ effects (f a)) (outcome (f a))
  | Throw e => Run (effects m) (Throw e)
  end.
Global Instance M_fmap : FMap M := λ A B f m, Run (effects m) (f <$> outcome m).

(** A synchronous computation inside asynchronous code; [throw]. *)
Definition lift {A} (r : Res A) : M A := Run [] r.
Definition throw {A} (e : JsError) : M A := Run [] (Throw e).

(** [try { body } catch (error) { handler }] around awaited code. *)
Definition try_catch_async {A} (body : M A) (handler : JsError → M A) : M A :=
  match outcome body with
  | Ok a => body
  | Throw e => Run (effects body ++ effects (handler e)) (outcome (handler e))
  end.

(** logger.js *)
Definition logger_info (msg : string) : M unit := Run [Log Info msg] (Ok tt).
Definition logger_warn (msg : string) : M unit := Run [Log Warn msg] (Ok tt).
Definition logger_error (msg : string) : M unit := Run [Log Error msg] (Ok tt).

(** *** Promise.allSettled

    The tasks of a fan-out are calls of async functions whose first statement
    awaits a request, so that all their effects happen after the promises are
    created. The requests complete in an order the program does not control:
    [sched] lists task indices in the order of completion (an index that is
    out of range or already settled is skipped, and the tasks it leaves out
    complete afterwards). Every request is taken to complete. *)

Inductive Settled (A : Type) :=
  | Fulfilled (v : A)
  | Rejected (reason : JsError).
Arguments Fulfilled {A} v.
Arguments Rejected {A} reason.

Definition settle {A} (r : Res A) : Settled A :=
  match r with
  | Ok a => Fulfilled a
  | Throw e => Rejected e
  end.

(** [result.value], [undefined] on a rejected result. *)
Definition settled_value {A} (result : Settled A) : option A :=
  match result with
  | Fulfilled v => Some v
  | Rejected _ => None
  end.

(** Task [i] completes: its effects happen and slot [i] is filled. *)
Definition complete {A} (tasks : list (M A))
    (st : list Effect * list (option (Settled A))) (i : nat)
  : list Effect * list (option (Settled A)) :=
  match tasks !! i, st.2 !! i with
  | Some t, Some None => (st.1 ++ effects t, <[i := Some (settle (outcome t))]> st.2)
  | _, _ => st
  end.

Definition allSettled {A} (sched : list nat) (tasks : list (M A)) : M (list (Settled A)) :=
  let n := length tasks in
  let st := foldl (complete tasks) ([], replicate n None) (sched ++ seq 0 n) in
  Run st.1 (Ok (omap id st.2)).

(** Ghost state for reasoning about a fan-out in progress: the slots and the
    effects when exactly the tasks flagged in [done] have completed. *)
Definition slots_of {A} (tasks : list (M A)) (done : list bool)
  : list (option (Settled A)) :=
  zip_with (λ t (b : bool), if b then Some (settle (outcome t)) else None) tasks done.

Definition effects_of {A} (tasks : list (M A)) (done : list bool) : list (list Effect) :=
  zip_with (λ t (b : bool), if b then effects t else []) tasks done.

(** ** The program *)

Section Program.

Variable w : World.

(** *** crawler.js *)

Definition getHtmlResponse (url : JsStr) : Res string :=
  try_catch
    (match axios_get w url with
     | AxiosRejects e => Throw e
     | AxiosResponse status data =>
         if (status =? 200)%Z then Ok data
         else Throw (UnsuccessfulResponseError url)
     end)
    (λ _, Throw (NoResponseError url)).

Definition getAssetStream (assetUrl : JsStr) : Res Stream :=
  try_catch
    (match axios_get_stream w assetUrl with
     | AxiosRejects e => Throw e
     | AxiosResponse status data =>
         if (status =? 200)%Z then Ok data
         else Throw (UnsuccessfulResponseError assetUrl)
     end)
    (λ _, Throw (NoResponseError assetUrl)).

(** *** dataExtractors.js

    The parameter [$] of the extractors, the loaded page, is written [doc]. *)

Definition extractBookCategory (doc : Document) (bookPageUrl : JsStr) : Res string :=
  (* Select the breadcrumb before the last one *)
  let category := cheerio_eq (-2) (doc bookPageSelectors.breadcrumbs) in
  if negb (truthy category) then Throw (BookCategoryNotFoundError bookPageUrl)
  else Ok (trim (cheerio_text category)).

Definition extractBookTitle (doc : Document) (bookPageUrl : JsStr) : Res string :=
  let titleElementArray := doc bookPageSelectors.title in
  if (length titleElementArray =? 0)%nat then Throw (BookTitleNotFoundError bookPageUrl)
  else Ok (trim (cheerio_text (cheerio_eq 0 titleElementArray))).

Definition extractBookRating (doc : Document) : Res string :=
  try_catch
    (cls ← member "undefined" "trim"
             (cheerio_attr "class" (cheerio_eq 0 (doc bookPageSelectors.rating)));
     member "null" "at" (js_match re_rating (trim cls)))
    (λ _, bookPageUrl ← identifier [] "bookPageUrl";
          Throw (BookRatingNotFoundError bookPageUrl)).

Definition extractBookDescription (doc : Document) : Res string :=
  try_catch
    (Ok (trim (cheerio_text (doc bookPageSelectors.description))))
    (λ _, bookPageUrl ← identifier [] "bookPageUrl";
          Throw (BookDescriptionNotFoundError bookPageUrl)).

(** The loop [for (let index = 0; index < items; ++index)] of
    [extractBookProductInfo], with [todo] iterations left; [a[index]] is
    [undefined] when [index] is out of range. *)
Fixpoint combine_loop (productInfoKeys productInfoData : list string)
    (todo index : nat) (productInfo : list InfoItem) : list InfoItem :=
  match todo with
  | O => productInfo
  | S todo' =>
      combine_loop productInfoKeys productInfoData todo' (S index)
        (productInfo ++ [{| key := productInfoKeys !! index;
                            value := productInfoData !! index |}])
  end.

Definition extractBookProductInfo (doc : Document) : Res (list InfoItem) :=
  try_catch
    ((* Collect info keys *)
     let productInfoKeys :=
       (λ element, trim (cheerio_text [element])) <$> doc bookPageSelectors.productInfoKeys in
     (* Collect info data *)
     let productInfoData :=
       (λ element, trim (cheerio_text [element])) <$> doc bookPageSelectors.productInfoData in
     (* Find the least number of items *)
     let items :=
       if (length productInfoKeys <? length productInfoData)%nat
       then length productInfoKeys
       else length productInfoData in
     Ok (combine_loop productInfoKeys productInfoData items 0 []))
    (λ _, bookPageUrl ← identifier [] "bookPageUrl";
          Throw (BookProductInfoNotFoundError bookPageUrl)).

Definition extractBookImageUrl (doc : Document) (bookPageUrl : JsStr) : Res string :=
  try_catch
    (src ← member "undefined" "trim" (cheerio_attr "src" (doc bookPageSelectors.image));
     URL_href w (trim src) bookPageUrl)
    (λ _, Throw (BookImageURLFoundError bookPageUrl)).


(** *** commonUtils.js *)

Definition mkdir (dir : string) : M unit :=
  if mkdir_ok w dir then Run [Mkdir dir] (Ok tt)
  else throw (SystemError ("mkdir " +:+ dir)).

Definition writeFile (file : string) (data : list BookInfo) : M unit :=
  if writeFile_ok w file then Run [WriteFile file data] (Ok tt)
  else throw (SystemError ("open " +:+ file)).

Definition writeToJsonFile (filePath : string) (data : list BookInfo) : M bool :=
  try_catch_async
    (mkdir (path_dirname w filePath);;
     writeFile filePath data;;
     mret true)
    (λ _, throw (FileWriteError filePath)).

Definition downloadAsset (assetUrl filePath : string) : M bool :=
  dataStream ← lift (getAssetStream (Some assetUrl));
  try_catch_async
    (mkdir (path_dirname w filePath))
    (λ _, throw (FileWriteError filePath));;
  (* the writer emits "finish" or "error" *)
  if stream_ok w filePath then Run [Pipe filePath dataStream] (Ok true)
  else throw (FileWriteError filePath).

(** *** scrapingUtils.js *)

(** The template literal [`catalogue/page-${pageNum}.html`]. *)
Definition catalogue_page (pageNum : N) : string :=
  "catalogue/page-" +:+ pretty pageNum +:+ ".html".

(** The loop [for (let pageNum = 1; pageNum <= numOfCatalogPages; ++pageNum)]
    of [constructCatalogPageUrls], with [todo] iterations left. *)
Fixpoint page_loop (baseUrl : string) (todo : nat) (pageNum : N)
    (catalogPageUrls : list string) : Res (list string) :=
  match todo with
  | O => Ok catalogPageUrls
  | S todo' =>
      href ← URL_href w (catalogue_page pageNum) (Some baseUrl);
      page_loop baseUrl todo' (pageNum + 1)%N (catalogPageUrls ++ [href])
  end.

Definition constructCatalogPageUrls (baseUrl : string) : M (option (list string)) :=
  match getHtmlResponse (Some baseUrl) with
  | Throw error => logger_error (message error);; mret None
  | Ok html =>
      (* Load the home page HTML content with Cheerio *)
      let doc := cheerio_load w html in
      (* Number of catalog pages to scrape *)
      numOfCatalogPages ← lift
        (try_catch
           (Number <$> member "null" "at"
                         (js_match re_page_count (trim (cheerio_text (doc paginationSelector)))))
           (λ _, Throw CatalogPageCountNotFoundError));
      (* Construct catalog page URLs by incrementing the page number sequentially *)
      catalogPageUrls ← lift (page_loop baseUrl (N.to_nat numOfCatalogPages) 1 []);
      mret (Some catalogPageUrls)
  end.

(** The [reduce] over the book anchors: [result] is [{ urls, errors }]. *)
Fixpoint reduce_anchors (baseUrl : string) (elements : list Element)
    (result : list string * nat) : Res (list string * nat) :=
  match elements with
  | [] => Ok result
  | element :: elements' =>
      let elementHref := cheerio_attr "href" [element] in
      result' ←
        (if truthy elementHref then
           href ← URL_href w ("catalogue/" +:+ tpl elementHref) (Some baseUrl);
           Ok (result.1 ++ [href], result.2)
         else Ok (result.1, S result.2));
      reduce_anchors baseUrl elements' result'
  end.

Definition constructBookPageUrlsInCatalogPage (catalogPageUrl baseUrl : string)
  : M (list string) :=
  match getHtmlResponse (Some catalogPageUrl) with
  | Throw error => logger_error (message error);; mret []
  | Ok html =>
      (* Load catalog page with Cheerio *)
      let doc := cheerio_load w html in
      result ← lift (reduce_anchors baseUrl (doc bookAnchorSelector) ([], O));
      (if (0 <? result.2)%nat then
         logger_warn (pretty result.2 +:+ " URL(s) could not be found on " +:+ catalogPageUrl
                      +:+ " due to href attribute not found")
       else mret tt);;
      mret result.1
  end.

(** [accumulator.concat(currentValue)]: an array is spread, any other value
    (here [undefined], the value of a rejected result) is appended as it is. *)
Definition concat_value (accumulator : list JsStr) (currentValue : option (list string))
  : list JsStr :=
  match currentValue with
  | Some l => accumulator ++ (Some <$> l)
  | None => accumulator ++ [None]
  end.

Definition constructAllBookPageUrls (sched : list nat)
    (catalogPageUrls : list string) (baseUrl : string) : M (list JsStr) :=
  results ← allSettled sched
    ((λ url, constructBookPageUrlsInCatalogPage url baseUrl) <$> catalogPageUrls);
  mret (foldl concat_value [] (settled_value <$> results)).

Definition parseBookInfo (doc : Document) (bookPageUrl : JsStr) : Res BookInfo :=
  category ← extractBookCategory doc bookPageUrl;
  title ← extractBookTitle doc bookPageUrl;
  rating ← extractBookRating doc;
  description ← extractBookDescription doc;
  productInfo ← extractBookProductInfo doc;
  imageUrl ← extractBookImageUrl doc bookPageUrl;
  Ok {| url := bookPageUrl; category := category; title := title; rating := rating;
        description := description; productInfo := productInfo; imageUrl := imageUrl |}.

(** Resolves to the record, or to [null] ([None]) if the page is not
    accessible. *)
Definition extractBookInfo (bookPageUrl : JsStr) : M (option BookInfo) :=
  match getHtmlResponse bookPageUrl with
  | Throw error => logger_error (message error);; mret None
  | Ok html =>
      (* Return book page details by parsing HTML response *)
      Some <$> lift (parseBookInfo (cheerio_load w html) bookPageUrl)
  end.

(** [result.value] of a settled [extractBookInfo]: [null] and [undefined]
    are both [None]. *)
Definition record_value (result : Settled (option BookInfo)) : option BookInfo :=
  mjoin (settled_value result).

Definition extractAllBookInfo (sched : list nat) (bookPageUrls : list JsStr)
  : M (list BookInfo) :=
  results ← allSettled sched (extractBookInfo <$> bookPageUrls);
  mret (foldl (λ bookInfoList result,
                 if truthy (record_value result)
                 then bookInfoList ++ option_list (record_value result)
                 else bookInfoList)
              [] results).

(** The callback of [imageData.map] in [downloadBookImages], up to the call of
    [downloadAsset]: it runs when the promises are created. When it throws
    for a descriptor, [downloadBookImages] rejects at once; the downloads
    already started for the descriptors before it are not awaited, and what
    they do after the rejection is not part of the run. *)
Definition imageFilePath (dataDirectory : string) (imageDatum : ImageDatum.t) : Res string :=
  imageExtension ← member "null" "at" (js_match re_extension (ImageDatum.url imageDatum));
  let imageName := tpl (ImageDatum.identifier imageDatum) +:+ "." +:+ imageExtension in
  Ok (path_resolve w dataDirectory imageName).

Definition downloadBookImages (sched : list nat) (imageData : list ImageDatum.t)
    (dataDirectory : string) : M (list (Settled bool)) :=
  tasks ← lift (mapM (λ imageDatum,
                        downloadAsset (ImageDatum.url imageDatum)
                          <$> imageFilePath dataDirectory imageDatum)
                     imageData);
  allSettled sched tasks.

(** *** index.js

    The three fan-outs of a run complete in the orders [sched2], [sched3] and
    [sched5]. *)

Definition duration_text (d : Duration) : string :=
  pretty (hours d) +:+ " hr(s) " +:+ pretty (minutes d) +:+ " min(s) and "
  +:+ pretty (seconds d) +:+ " sec(s)".

Definition executeBookScrapingJob (sched2 sched3 : list nat)
    (baseUrl outputFilePath : string) : M (list BookInfo) :=
  logger_info "Book data scraping job started";;
  (* Construct all book catalog page URLs *)
  catalogPageUrls ← constructCatalogPageUrls baseUrl;
  catalogPageUrls ← lift (member "null" "length" catalogPageUrls);
  logger_info ("Number of catalog page URLs found: " +:+ pretty (length catalogPageUrls));;
  (* Construct all book details page URLs within those catalog pages. *)
  bookPageUrls ← constructAllBookPageUrls sched2 catalogPageUrls baseUrl;
  logger_info ("Number of book details page URLs found: " +:+ pretty (length bookPageUrls));;
  (* Scrape all book data from book details page URLs *)
  bookData ← extractAllBookInfo sched3 bookPageUrls;
  logger_info ("Number of books scraped: " +:+ pretty (length bookData));;
  try_catch_async
    (writeToJsonFile outputFilePath bookData;;
     logger_info ("The book data has been persisted to " +:+ outputFilePath))
    (λ error, logger_error (message error));;
  logger_info ("Book data scraping job completed in "
               +:+ duration_text (scraping_duration w));;
  mret bookData.

(** [bookData] is [undefined] ([None]) when it was never assigned. *)
Definition downloadAssets (sched5 : list nat) (bookData : option (list BookInfo))
    (dataDirectory : string) : M unit :=
  logger_info "Book data asset download job started";;
  bookData ← lift (member "undefined" "map" bookData);
  imageData ← lift (mapM (λ datum,
      item ← member "undefined" "value"
               (snd <$> list_find (λ item, key item = Some "UPC") (productInfo datum));
      Ok {| ImageDatum.url := imageUrl datum; ImageDatum.identifier := value item |})
    bookData);
  logger_info ("Number of assets scheduled to be downloaded: " +:+ pretty (length imageData));;
  results ← downloadBookImages sched5 imageData dataDirectory;
  rejectedPromises ←
    foldl (λ (count : M nat) result,
             rejectedPromises ← count;
             match result with
             | Rejected reason =>
                 logger_error (message reason);; mret (S rejectedPromises)
             | Fulfilled _ => mret rejectedPromises
             end)
          (mret O) results;
  logger_info ("Number of assets successfully downloaded: "
               +:+ pretty (length imageData - rejectedPromises));;
  logger_info ("Book data asset download job completed in "
               +:+ duration_text (download_duration w)).

Definition BASE_URL := "http://books.toscrape.com".

(** [process.env.DATA_DIR ?? "data"] *)
Definition DATA_DIR : string := default "data" (env_DATA_DIR w).

(** The statements at the top level of the module. *)
Definition main (sched2 sched3 sched5 : list nat) : M unit :=
  bookData ←
    try_catch_async
      (Some <$> executeBookScrapingJob sched2 sched3 BASE_URL (DATA_DIR +:+ "/book-data.json"))
      (λ error, logger_error (message error);; mret None);
  downloadAssets sched5 bookData (DATA_DIR +:+ "/assets").

End Program.

(** ** Notions of the specification *)

Fixpoint take_while {A} (p : A → bool) (l : list A) : list A :=
  match l with
  | [] => []
  | x :: l' => if p x then x :: take_while p l' else []
  end.

(** The trailing alphanumeric run of a string: its longest suffix of letters
    and digits. *)
Definition trailing_alnum (s : string) : string :=
  String.string_of_list_ascii
    (rev (take_while is_alnum_i (rev (String.list_ascii_of_string s)))).

(** The file name [{identifier}.{extension}] of an asset descriptor. *)
Definition asset_file_name (imageDatum : ImageDatum.t) : string :=
  tpl (ImageDatum.identifier imageDatum) +:+ "." +:+ trailing_alnum (ImageDatum.url imageDatum).

(** The rating word that the chain [.eq(0).attr('class').trim().match(...)]
    of [extractBookRating] finds on a page, if every step of it has a
    result. *)
Definition rating_token (doc : Document) : option string :=
  cls ← cheerio_attr "class" (cheerio_eq 0 (doc bookPageSelectors.rating));
  js_match re_rating (trim cls).

(** The record of an item page whose fetch and extraction both succeed. *)
Definition scraped (w : World) (bookPageUrl : JsStr) : option BookInfo :=
  match getHtmlResponse w bookPageUrl with
  | Ok html =>
      match parseBookInfo w (cheerio_load w html) bookPageUrl with
      | Ok bookInfo => Some bookInfo
      | Throw _ => None
      end
  | Throw _ => None
  end.

(** The log entry of an item page whose fetch fails. *)
Definition fetch_failure_log (w : World) (bookPageUrl : JsStr) : list Effect :=
  match getHtmlResponse w bookPageUrl with
  | Ok _ => []
  | Throw error => [Log Error (message error)]
  end.

(** ** Sample worlds

    A world for the examples: requests are answered by [get] and [get_stream],
    a page body is loaded by [load], URLs are built by [join_URL], paths are
    joined with a slash, and the file system accepts every write. *)

Definition join_URL (input : string) (base : JsStr) : Res string :=
  match base with
  | Some b => Ok (b +:+ "/" +:+ input)
  | None => Throw (TypeError "Invalid URL")
  end.

(** The part of a path before its last slash. *)
Definition parent_directory (file : string) : string :=
  let not_slash c := negb (Ascii.eqb c "/") in
  String.string_of_list_ascii
    (rev (drop 1 (drop_while not_slash (rev (String.list_ascii_of_string file))))).

Definition sample_world (get : JsStr → AxiosOutcome string)
    (get_stream : JsStr → AxiosOutcome Stream) (load : string → Document) : World := {|
  axios_get := get;
  axios_get_stream := get_stream;
  cheerio_load := load;
  URL_href := join_URL;
  path_resolve := λ dir name, dir +:+ "/" +:+ name;
  path_dirname := parent_directory;
  mkdir_ok := λ _, true;
  writeFile_ok := λ _, true;
  stream_ok := λ _, true;
  env_DATA_DIR := None;
  scraping_duration := {| hours := 0; minutes := 0; seconds := 1 |};
  download_duration := {| hours := 0; minutes := 0; seconds := 1 |};
|}.

Definition no_stream : JsStr → AxiosOutcome Stream :=
  λ _, AxiosRejects (AxiosError "Network Error").

(** An element with a class attribute and a text. *)
Definition elem (class text : string) : Element :=
  {| attribs := {[ "class" := class ]}; text_content := text |}.

(** An element with one attribute. *)
Definition elem_attr (name v : string) : Element :=
  {| attribs := {[ name := v ]}; text_content := "" |}.

(** A document given by the selections of the selectors it answers. *)
Definition document (selections : list (string * Cheerio)) : Document := λ selector,
  default [] (snd <$> (snd <$> list_find (λ p, p.1 = selector) selections)).

(** A complete detail page of a book. *)
Definition book_page : Document := document [
  (bookPageSelectors.breadcrumbs,
     [elem "" "Home"; elem "" "Books"; elem "" " Poetry "; elem "active" "A Light in the Attic"]);
  (bookPageSelectors.title, [elem "" "A Light in the Attic"]);
  (bookPageSelectors.rating, [elem "star-rating Three" ""]);
  (bookPageSelectors.description, [elem "" "Poems."]);
  (bookPageSelectors.productInfoKeys, [elem "" "UPC"; elem "" "Price"]);
  (bookPageSelectors.productInfoData, [elem "" "abc123"; elem "" "51.77"]);
  (bookPageSelectors.image, [elem_attr "src" "media/cache/fe/72.jpg"])
].

(** The same page without its title heading. *)
Definition untitled_page : Document := λ selector,
  if String.eqb selector bookPageSelectors.title then [] else book_page selector.

(** A page whose rating element carries no rating word. *)
Definition unrated_page : Document := document [
  (bookPageSelectors.rating, [elem "star-rating" ""])
].

(** A page without any of the selected elements. *)
Definition empty_page : Document := λ _, [].

(** A product table with three header cells and two data cells. *)
Definition ragged_table : Document := document [
  (bookPageSelectors.productInfoKeys, [elem "" "UPC"; elem "" "Price"; elem "" "Tax"]);
  (bookPageSelectors.productInfoData, [elem "" " abc123 "; elem "" "51.77"])
].

(** A world in which the requests of [pages] are answered with status 200
    and the given body, every other request fails, and the bodies of [docs]
    load as the given documents. *)
Definition site (pages : list (string * string)) (docs : list (string * Document)) : World :=
  sample_world
    (λ url, match snd <$> (url' ← url; list_find (λ p, p.1 = url') pages) with
            | Some (_, body) => AxiosResponse 200 body
            | None => AxiosRejects (AxiosError "Network Error")
            end)
    no_stream
    (λ html, default empty_page (snd <$> (snd <$> list_find (λ p, p.1 = html) docs))).

(** A pagination indicator, and a catalog page with the given book links. *)
Definition home_page (indicator : string) : Document :=
  document [(paginationSelector, [elem "current" indicator])].

Definition catalog_page (hrefs : list string) : Document :=
  document [(bookAnchorSelector, elem_attr "href" <$> hrefs)].

(** A site of three catalog pages. *)
Definition three_pages : World :=
  site [(BASE_URL, "home")] [("home", home_page "
            Page 1 of 3
        ")].

(** A site whose pagination indicator has no page count. *)
Definition no_page_count : World :=
  site [(BASE_URL, "home")] [("home", home_page "Page")].

(** Two catalog pages, [A] with one book and [B] with two. *)
Definition two_catalog_pages : World :=
  site [("A", "a"); ("B", "b")]
       [("a", catalog_page ["u1"]); ("b", catalog_page ["u2"; "u3"])].

(** Three item pages: the second one cannot be fetched. *)
Definition second_unreachable : World :=
  site [("item1", "book"); ("item3", "book")] [("book", book_page)].

(** Three item pages: the second one has no title. *)
Definition second_untitled : World :=
  site [("item1", "book"); ("item2", "untitled"); ("item3", "book")]
       [("book", book_page); ("untitled", untitled_page)].

(** A world in which the home page is answered with status 204. *)
Definition no_content : World :=
  sample_world (λ _, AxiosResponse 204 "") no_stream (λ _, empty_page).

(** A world that serves one image. *)
Definition one_image : World :=
  sample_world (λ _, AxiosRejects (AxiosError "Network Error"))
    (λ url, if bool_decide (url = Some "http://books.toscrape.com/media/cache/fe/72.jpg")
            then AxiosResponse 200 "bytes"
            else AxiosRejects (AxiosError "Network Error"))
    (λ _, empty_page).

Definition abc123 : ImageDatum.t :=
  {| ImageDatum.url := "http://books.toscrape.com/media/cache/fe/72.jpg";
     ImageDatum.identifier := Some "abc123" |}.

(** ** Further notions and sample data *)

(** The callback of [bookData.map] in [downloadAssets]: the asset descriptor
    of a record, its identifier being the value of the first product
    information item whose key is ["UPC"]. *)
Definition imageDatum_of (datum : BookInfo) : Res ImageDatum.t :=
  item ← member "undefined" "value"
           (snd <$> list_find (λ item, key item = Some "UPC") (productInfo datum));
  Ok {| ImageDatum.url := imageUrl datum; ImageDatum.identifier := value item |}.

(** The reasons of the rejected results, in order. *)
Definition rejections {A} (results : list (Settled A)) : list JsError :=
  omap (λ result, match result with
                  | Rejected reason => Some reason
                  | Fulfilled _ => None
                  end) results.

(** What a settled catalog page adds to the list of all book page URLs. *)
Definition page_urls (w : World) (baseUrl catalogPageUrl : string) : list JsStr :=
  match outcome (constructBookPageUrlsInCatalogPage w catalogPageUrl baseUrl) with
  | Ok urls => Some <$> urls
  | Throw _ => [None]
  end.

(** A detail page whose only breadcrumb is the home link. *)
Definition home_only_page : Document := document [
  (bookPageSelectors.breadcrumbs, [elem "" "Home"])
].

(** A catalog page with three book links, the second without [href]. *)
Definition broken_link_page : World :=
  site [("A", "a")]
       [("a", document [(bookAnchorSelector,
                         [elem_attr "href" "u1"; elem "" "no link"; elem_attr "href" "u3"])])].

(** A scraped record with the given product information and image URL. *)
Definition record (productInfo : list InfoItem) (imageUrl : string) : BookInfo :=
  {| url := Some "item1"; category := "Poetry"; title := "A Light in the Attic";
     rating := "Three"; description := "Poems."; productInfo := productInfo;
     imageUrl := imageUrl |}.

Definition upc (v : string) : InfoItem := {| key := Some "UPC"; value := Some v |}.

(** A world that serves one image and refuses to create directories. *)
Definition read_only_disk : World := {|
  axios_get := axios_get three_pages;
  axios_get_stream := axios_get_stream one_image;
  cheerio_load := cheerio_load three_pages;
  URL_href := join_URL;
  path_resolve := λ dir name, dir +:+ "/" +:+ name;
  path_dirname := parent_directory;
  mkdir_ok := λ _, false;
  writeFile_ok := λ _, true;
  stream_ok := λ _, true;
  env_DATA_DIR := Some "out";
  scraping_duration := {| hours := 0; minutes := 0; seconds := 2 |};
  download_duration := {| hours := 0; minutes := 0; seconds := 1 |};
|}.

(** A detail page with a title, a rating and an image, and nothing else. *)
Definition bare_page : Document := document [
  (bookPageSelectors.title, [elem "" "Untitled"]);
  (bookPageSelectors.rating, [elem "star-rating One" ""]);
  (bookPageSelectors.image, [elem_attr "src" " cover.jpg "])
].

(** A site with one catalog page of two books, the second of which cannot
    be fetched. *)
Definition small_shop : World :=
  site [(BASE_URL, "home");
        ("http://books.toscrape.com/catalogue/page-1.html", "page-1");
        ("http://books.toscrape.com/catalogue/a/index.html", "book")]
       [("home", home_page "Page 1 of 1");
        ("page-1", catalog_page ["a/index.html"; "b/index.html"]);
        ("book", book_page)].

(** The world [w] with a [URL] constructor that rejects every input. *)
Definition with_invalid_URL (w : World) : World := {|
  axios_get := axios_get w;
  axios_get_stream := axios_get_stream w;
  cheerio_load := cheerio_load w;
  URL_href := λ _ _, Throw (TypeError "Invalid URL");
  path_resolve := path_resolve w;
  path_dirname := path_dirname w;
  mkdir_ok := mkdir_ok w;
  writeFile_ok := writeFile_ok w;
  stream_ok := stream_ok w;
  env_DATA_DIR := env_DATA_DIR w;
  scraping_duration := scraping_duration w;
  download_duration := download_duration w;
|}.

Definition invalid_base : World := with_invalid_URL three_pages.

(** A site with one catalog page of one book, whose page has no product
    information table. *)
Definition bare_shop : World :=
  site [(BASE_URL, "home");
        ("http://books.toscrape.com/catalogue/page-1.html", "page-1");
        ("http://books.toscrape.com/catalogue/a/index.html", "book")]
       [("home", home_page "Page 1 of 1");
        ("page-1", catalog_page ["a/index.html"]);
        ("book", bare_page)].

(** An asset descriptor whose URL ends in a slash. *)
Definition no_extension : ImageDatum.t :=
  {| ImageDatum.url := "http://books.toscrape.com/"; ImageDatum.identifier := Some "xyz" |}.

(** ** The URL constructor on paths *)

(** [s] without the prefix [p], if it starts with it. *)
Fixpoint strip_prefix (p s : list ascii) : option (list ascii) :=
  match p, s with
  | [], _ => Some s
  | c :: p', d :: s' => if Ascii.eqb c d then strip_prefix p' s' else None
  | _ :: _, [] => None
  end.

(** Modelled from the WHATWG URL standard: [new URL(input, base).href] for a
    base [http://host/path] or [https://host/path] (lower-case host, no default
    port, query or fragment) and an input that is a path without dot
    segments, query, fragment or characters to encode. An input with a
    leading slash replaces the path of the base; any other input replaces
    the last segment of the path of the base, the path of a base without one
    being [/]. Only these bases and inputs are covered: a base that is
    [undefined] or does not start with such a scheme and a host is answered
    with the [TypeError] that the constructor throws for a base that is not
    an absolute URL. *)
Definition whatwg_href (input : string) (base : JsStr) : Res string :=
  let not_slash c := negb (Ascii.eqb c "/") in
  let chars := String.list_ascii_of_string in
  match base with
  | None => Throw (TypeError "Invalid URL")
  | Some base =>
      let split scheme :=
        rest ← strip_prefix (chars scheme) (chars base);
        let host := take_while not_slash rest in
        let path := drop_while not_slash rest in
        if bool_decide (host = []) then None
        else Some (chars scheme ++ host, path) in
      match (match split "http://" with Some r => Some r | None => split "https://" end) with
      | None => Throw (TypeError "Invalid URL")
      | Some (origin, path) =>
          let directory :=
            match path with
            | [] => chars "/"
            | _ => rev (drop_while not_slash (rev path))
            end in
          match chars input with
          | "/"%char :: _ => Ok (String.string_of_list_ascii (origin ++ chars input))
          | _ => Ok (String.string_of_list_ascii (origin ++ directory ++ chars input))
          end
      end
  end.

(** The world [w] with the constructor [URL] in place of its own. *)
Definition with_URL (URL : string → JsStr → Res string) (w : World) : World := {|
  axios_get := axios_get w;
  axios_get_stream := axios_get_stream w;
  cheerio_load := cheerio_load w;
  URL_href := URL;
  path_resolve := path_resolve w;
  path_dirname := path_dirname w;
  mkdir_ok := mkdir_ok w;
  writeFile_ok := writeFile_ok w;
  stream_ok := stream_ok w;
  env_DATA_DIR := env_DATA_DIR w;
  scraping_duration := scraping_duration w;
  download_duration := download_duration w;
|}.



(** The catalog page with a broken link, at its own URL. *)
Definition broken_link_site : World :=
  with_URL whatwg_href
    (site [("http://books.toscrape.com/catalogue/page-1.html", "a")]
          [("a", document [(bookAnchorSelector,
                            [elem_attr "href" "u1_1/index.html"; elem "" "no link";
                             elem_attr "href" "u3_3/index.html"])])]).

(** * Properties *)

(** ** Promise.allSettled: the settled results do not depend on the schedule *)

Section AllSettled.

Context {A : Type}.
Implicit Types (tasks : list (M A)) (done : list bool) (sched : list nat) (t : M A) (i j : nat) (b : bool).

Lemma slots_of_lookup tasks done i t b :
  tasks !! i = Some t → done !! i = Some b →
  slots_of tasks done !! i = Some (if b then Some (settle (outcome t)) else None).
Proof.
  intros Ht Hb. unfold slots_of. rewrite lookup_zip_with, Ht, Hb. done.
Qed.

Lemma slots_of_insert tasks done i t :
  tasks !! i = Some t →
  slots_of tasks (<[i:=true]> done) = <[i:=Some (settle (outcome t))]> (slots_of tasks done).
Proof.
  intros Ht. unfold slots_of.
  rewrite <-(list_insert_id tasks i t) at 1 by done.
  symmetry.
  apply (insert_zip_with (λ t (b : bool), if b then Some (settle (outcome t)) else None)
           tasks done i t true).
Qed.

Lemma concat_insert_nil (ls : list (list Effect)) i x :
  ls !! i = Some [] → concat (<[i:=x]> ls) ≡ₚ concat ls ++ x.
Proof.
  revert i. induction ls as [|l ls IH]; intros [|i] Hi; simplify_eq/=.
  - by rewrite Permutation_app_comm.
  - rewrite IH by done. by rewrite (assoc_L (++)).
Qed.

Lemma effects_of_insert tasks done i t :
  tasks !! i = Some t → done !! i = Some false →
  concat (effects_of tasks (<[i:=true]> done)) ≡ₚ concat (effects_of tasks done) ++ effects t.
Proof.
  intros Ht Hd. unfold effects_of.
  rewrite <-(list_insert_id tasks i t) at 1 by done.
  pose proof (insert_zip_with (λ t (b : bool), if b then effects t else [])
                tasks done i t true) as Hins.
  simpl in Hins. rewrite <-Hins.
  apply concat_insert_nil. by rewrite lookup_zip_with, Ht, Hd.
Qed.

(** One completion keeps the state described by some [done], never clears a
    flag, and sets the flag of the task that completed. *)
Lemma complete_done tasks st done i :
  length done = length tasks →
  st.2 = slots_of tasks done →
  st.1 ≡ₚ concat (effects_of tasks done) →
  ∃ done',
    length done' = length tasks ∧
    (complete tasks st i).2 = slots_of tasks done' ∧
    (complete tasks st i).1 ≡ₚ concat (effects_of tasks done') ∧
    (∀ j, done !! j = Some true → done' !! j = Some true) ∧
    (i < length tasks → done' !! i = Some true).
Proof.
  intros Hlen Hslots Heff. unfold complete.
  destruct (tasks !! i) as [t|] eqn:Ht.
  - destruct (lookup_lt_is_Some_2 done i) as [b Hb].
    { rewrite Hlen. by eapply lookup_lt_Some. }
    rewrite Hslots, (slots_of_lookup _ _ _ _ _ Ht Hb).
    destruct b; simpl.
    + exists done. eauto.
    + exists (<[i:=true]> done). split_and!.
      * by rewrite length_insert.
      * by rewrite (slots_of_insert _ _ _ t).
      * rewrite (effects_of_insert _ _ _ t) by done. by rewrite Heff.
      * intros j Hj. destruct (decide (i = j)) as [->|]; [congruence|].
        by rewrite list_lookup_insert_ne.
      * intros _. apply list_lookup_insert_eq. by eapply lookup_lt_Some.
  - exists done. split_and!; try done.
    intros Hi. apply lookup_ge_None_1 in Ht. lia.
Qed.

Lemma foldl_complete_done tasks sched : ∀ st done,
  length done = length tasks →
  st.2 = slots_of tasks done →
  st.1 ≡ₚ concat (effects_of tasks done) →
  ∃ done',
    length done' = length tasks ∧
    (foldl (complete tasks) st sched).2 = slots_of tasks done' ∧
    (foldl (complete tasks) st sched).1 ≡ₚ concat (effects_of tasks done') ∧
    (∀ j, done !! j = Some true → done' !! j = Some true) ∧
    (∀ i, i ∈ sched → i < length tasks → done' !! i = Some true).
Proof.
  induction sched as [|i sched IH]; intros st done Hlen Hslots Heff; simpl.
  - exists done. split_and!; try done. intros i Hi. by apply elem_of_nil in Hi.
  - destruct (complete_done tasks st done i Hlen Hslots Heff)
      as (done1 & Hlen1 & Hslots1 & Heff1 & Hkeep1 & Hset1).
    destruct (IH _ done1 Hlen1 Hslots1 Heff1)
      as (done2 & Hlen2 & Hslots2 & Heff2 & Hkeep2 & Hset2).
    exists done2. split_and!; try done.
    + auto.
    + intros j [->|Hj]%elem_of_cons Hlt; auto.
Qed.

Lemma slots_of_all tasks :
  slots_of tasks (replicate (length tasks) true) = (λ t, Some (settle (outcome t))) <$> tasks.
Proof.
  unfold slots_of. induction tasks as [|t tasks IH]; simpl; [done|]. by rewrite IH.
Qed.

Lemma effects_of_all tasks :
  effects_of tasks (replicate (length tasks) true) = effects <$> tasks.
Proof.
  unfold effects_of. induction tasks as [|t tasks IH]; simpl; [done|]. by rewrite IH.
Qed.

Lemma effects_of_none tasks :
  concat (effects_of tasks (replicate (length tasks) false)) = [].
Proof.
  unfold effects_of. induction tasks as [|t tasks IH]; simpl; done.
Qed.

Lemma slots_of_none tasks :
  slots_of tasks (replicate (length tasks) false) = replicate (length tasks) None.
Proof.
  unfold slots_of. induction tasks as [|t tasks IH]; simpl; [done|]. by rewrite IH.
Qed.

Lemma all_done done n :
  length done = n → (∀ i, i < n → done !! i = Some true) → done = replicate n true.
Proof.
  intros Hlen Hall. apply list_eq. intros i.
  destruct (decide (i < n)) as [Hi|Hi].
  - rewrite Hall by done. symmetry. by apply lookup_replicate_2.
  - rewrite (lookup_ge_None_2 done) by lia.
    symmetry. apply lookup_ge_None_2. rewrite length_replicate. lia.
Qed.

(** The state once every task has completed, whatever the schedule. *)
Lemma allSettled_final sched tasks :
  let st := foldl (complete tasks) ([], replicate (length tasks) None)
                  (sched ++ seq 0 (length tasks)) in
  st.2 = (λ t, Some (settle (outcome t))) <$> tasks ∧
  st.1 ≡ₚ concat (effects <$> tasks).
Proof.
  intros st.
  destruct (foldl_complete_done tasks (sched ++ seq 0 (length tasks))
              ([], replicate (length tasks) None) (replicate (length tasks) false))
    as (done & Hlen & Hslots & Heff & _ & Hset).
  { by rewrite length_replicate. }
  { by rewrite slots_of_none. }
  { by rewrite effects_of_none. }
  assert (done = replicate (length tasks) true) as ->.
  { apply all_done; [done|]. intros i Hi. apply Hset; [|done].
    apply elem_of_app. right. apply elem_of_seq. lia. }
  subst st. rewrite Hslots, Heff, slots_of_all, effects_of_all. done.
Qed.

Lemma omap_id_Some {B C} (f : B → C) (l : list B) :
  omap id ((λ x, Some (f x)) <$> l) = f <$> l.
Proof. induction l as [|x l IH]; csimpl; [done|]. by rewrite IH. Qed.

Lemma allSettled_outcome sched tasks :
  outcome (allSettled sched tasks) = Ok ((λ t, settle (outcome t)) <$> tasks).
Proof.
  unfold allSettled; simpl.
  destruct (allSettled_final sched tasks) as [-> _].
  f_equal. apply (omap_id_Some (λ t, settle (outcome t))).
Qed.

Lemma allSettled_effects sched tasks :
  effects (allSettled sched tasks) ≡ₚ concat (effects <$> tasks).
Proof.
  unfold allSettled; simpl. by destruct (allSettled_final sched tasks) as [_ ->].
Qed.

End AllSettled.

(** ** Strings *)

Lemma append_empty_r (s : string) : s +:+ "" = s.
Proof.
  induction s as [|c s IH]; [done|].
  change (String c (s +:+ "") = String c s). by rewrite IH.
Qed.

Lemma cheerio_text_singleton (e : Element) : cheerio_text [e] = text_content e.
Proof. unfold cheerio_text; simpl. apply append_empty_r. Qed.

(** ** crawler.js *)

Section Crawler.

Variable w : World.

Lemma getHtmlResponse_200 url data :
  axios_get w url = AxiosResponse 200 data → getHtmlResponse w url = Ok data.
Proof. intros H. unfold getHtmlResponse. by rewrite H. Qed.

Lemma getHtmlResponse_rejected url e :
  axios_get w url = AxiosRejects e → getHtmlResponse w url = Throw (NoResponseError url).
Proof. intros H. unfold getHtmlResponse. by rewrite H. Qed.

(** Whatever [axios.get] does, the only error that leaves [getHtmlResponse]
    is [NoResponseError]. *)
Lemma getHtmlResponse_throws url e :
  getHtmlResponse w url = Throw e → e = NoResponseError url.
Proof.
  unfold getHtmlResponse.
  destruct (axios_get w url) as [e'|status data]; simpl; [congruence|].
  destruct (status =? 200)%Z; simpl; congruence.
Qed.

(** C2. When the exchange completes with a status other than 200,
    [getHtmlResponse] throws [UnsuccessfulResponseError] inside its own [try]
    block, whose [catch] replaces it: the error at the boundary of the
    function is [NoResponseError], the same as when no exchange completes,
    and not [UnsuccessfulResponseError]. *)
Theorem getHtmlResponse_non_200 url status data :
  axios_get w url = AxiosResponse status data →
  status ≠ 200%Z →
  getHtmlResponse w url = Throw (NoResponseError url) ∧
  getHtmlResponse w url ≠ Throw (UnsuccessfulResponseError url).
Proof.
  intros Hget Hstatus. unfold getHtmlResponse. rewrite Hget.
  destruct (Z.eqb_spec status 200) as [|_]; [done|]. simpl. split; congruence.
Qed.

End Crawler.

(** ** dataExtractors.js *)

Section Extractors.

Implicit Types (doc : Document) (bookPageUrl : JsStr).

(** [extractBookCategory] returns on every page: the guard [!$category]
    tests an object. *)
Lemma extractBookCategory_total doc bookPageUrl :
  extractBookCategory doc bookPageUrl
  = Ok (trim (cheerio_text (cheerio_eq (-2) (doc bookPageSelectors.breadcrumbs)))).
Proof. reflexivity. Qed.

Lemma cheerio_eq_second_to_last (sel : Cheerio) (e last : Element) :
  cheerio_eq (-2) (sel ++ [e; last]) = [e].
Proof.
  unfold cheerio_eq. rewrite length_app. simpl.
  destruct (Z.ltb_spec (-2) 0) as [_|]; [|lia].
  destruct (Z.ltb_spec (Z.of_nat (length sel + 2) + -2) 0) as [|_]; [lia|].
  replace (Z.to_nat (Z.of_nat (length sel + 2) + -2)) with (length sel + 0) by lia.
  by rewrite (lookup_app_r sel), Nat.add_comm, Nat.add_sub by lia.
Qed.

(** With two breadcrumbs or more, the category is the trimmed text of the
    second-to-last one. *)
Lemma extractBookCategory_present doc bookPageUrl (sel : Cheerio) (e last : Element) :
  doc bookPageSelectors.breadcrumbs = sel ++ [e; last] →
  extractBookCategory doc bookPageUrl = Ok (trim (text_content e)).
Proof.
  intros H. rewrite extractBookCategory_total, H, cheerio_eq_second_to_last.
  by rewrite cheerio_text_singleton.
Qed.

(** C4. On a page without breadcrumb elements [extractBookCategory] does not
    fail with [BookCategoryNotFoundError]: [.eq(-2)] gives an empty selection,
    the guard [!$category] is false for it, and the function returns the
    empty string. *)
Theorem extractBookCategory_absent doc bookPageUrl :
  doc bookPageSelectors.breadcrumbs = [] →
  extractBookCategory doc bookPageUrl = Ok "" ∧
  extractBookCategory doc bookPageUrl ≠ Throw (BookCategoryNotFoundError bookPageUrl).
Proof. intros H. rewrite extractBookCategory_total, H. by split. Qed.


Lemma extractBookRating_run doc :
  extractBookRating doc =
    match rating_token doc with
    | Some token => Ok token
    | None => Throw (ReferenceError "bookPageUrl is not defined")
    end.
Proof.
  unfold extractBookRating, rating_token.
  destruct (cheerio_attr "class" _) as [cls|]; simpl; [|done].
  by destruct (js_match re_rating (trim cls)).
Qed.

Lemma extractBookRating_class doc (e : Element) (rest : Cheerio) (cls : string) :
  doc bookPageSelectors.rating = e :: rest →
  attribs e !! "class" = Some cls →
  rating_token doc = js_match re_rating (trim cls).
Proof.
  intros Hsel Hcls. unfold rating_token. rewrite Hsel.
  unfold cheerio_eq, cheerio_attr; simpl. by rewrite Hcls.
Qed.

(** The three ways in which the rating word is absent: no rating element, no
    class attribute on it, no trailing capitalized word in the attribute. *)
Lemma rating_token_absent doc :
  doc bookPageSelectors.rating = [] ∨
  (∃ e rest, doc bookPageSelectors.rating = e :: rest ∧
     (attribs e !! "class" = None ∨
      ∃ cls, attribs e !! "class" = Some cls ∧ js_match re_rating (trim cls) = None)) →
  rating_token doc = None.
Proof.
  intros [Hsel|(e & rest & Hsel & [Hcls|(cls & Hcls & Hmatch)])].
  - unfold rating_token. by rewrite Hsel.
  - unfold rating_token. rewrite Hsel. unfold cheerio_eq, cheerio_attr; simpl.
    by rewrite Hcls.
  - by rewrite (extractBookRating_class _ _ _ _ Hsel Hcls).
Qed.

(** The class attribute ["star-rating Three"] gives the rating ["Three"]. *)
Lemma extractBookRating_Three doc (e : Element) (rest : Cheerio) :
  doc bookPageSelectors.rating = e :: rest →
  attribs e !! "class" = Some "star-rating Three" →
  extractBookRating doc = Ok "Three".
Proof.
  intros Hsel Hcls.
  by rewrite extractBookRating_run, (extractBookRating_class _ _ _ _ Hsel Hcls).
Qed.

(** C3. When the rating element, its class attribute or the trailing
    capitalized word is absent, the [catch] block of [extractBookRating]
    evaluates [new BookRatingNotFoundError(bookPageUrl)], and [bookPageUrl]
    is not bound in this function: the failure that leaves it is a
    [ReferenceError], never [BookRatingNotFoundError]. *)
Theorem extractBookRating_absent doc :
  rating_token doc = None →
  extractBookRating doc = Throw (ReferenceError "bookPageUrl is not defined") ∧
  ∀ bookPageUrl, extractBookRating doc ≠ Throw (BookRatingNotFoundError bookPageUrl).
Proof. intros H. rewrite extractBookRating_run, H. by split. Qed.

Lemma extractBookDescription_total doc :
  extractBookDescription doc = Ok (trim (cheerio_text (doc bookPageSelectors.description))).
Proof. reflexivity. Qed.

(** The loop pairs the next [todo] keys and values from [index] on. *)
Lemma combine_loop_zip (keys data : list string) : ∀ todo index acc,
  index + todo ≤ length keys → index + todo ≤ length data →
  combine_loop keys data todo index acc
  = acc ++ zip_with (λ k v, {| key := Some k; value := Some v |})
             (take todo (drop index keys)) (take todo (drop index data)).
Proof.
  induction todo as [|todo IH]; intros index acc Hk Hd; simpl.
  - by rewrite app_nil_r.
  - destruct (lookup_lt_is_Some_2 keys index) as [k Hkey]; [lia|].
    destruct (lookup_lt_is_Some_2 data index) as [v Hval]; [lia|].
    rewrite IH by lia. rewrite Hkey, Hval, <-(assoc_L (++)). f_equal.
    rewrite (drop_S keys k index Hkey), (drop_S data v index Hval). done.
Qed.

(** C8. [extractBookProductInfo] returns on every page, with the product
    information keys and values (the trimmed texts of the header cells and of
    the data cells, in document order) paired by position: as many pairs as
    the shorter of the two lists has elements, the rest of the longer list
    being left out. *)
Theorem extractBookProductInfo_pairs doc :
  let keys := (λ e, trim (text_content e)) <$> doc bookPageSelectors.productInfoKeys in
  let data := (λ e, trim (text_content e)) <$> doc bookPageSelectors.productInfoData in
  let pairs := zip_with (λ k v, {| key := Some k; value := Some v |}) keys data in
  extractBookProductInfo doc = Ok pairs ∧
  length pairs = length (doc bookPageSelectors.productInfoKeys)
                   `min` length (doc bookPageSelectors.productInfoData).
Proof.
  intros keys data pairs. split.
  - unfold extractBookProductInfo, try_catch.
    rewrite (list_fmap_ext (λ element, trim (cheerio_text [element]))
               (λ e, trim (text_content e)) (doc bookPageSelectors.productInfoKeys))
      by (intros; by rewrite cheerio_text_singleton).
    rewrite (list_fmap_ext (λ element, trim (cheerio_text [element]))
               (λ e, trim (text_content e)) (doc bookPageSelectors.productInfoData))
      by (intros; by rewrite cheerio_text_singleton).
    fold keys data. f_equal.
    destruct (Nat.ltb_spec (length keys) (length data)).
    + rewrite combine_loop_zip by lia. rewrite !drop_0, take_ge by lia. simpl.
      subst pairs. by rewrite zip_with_take_r' by lia.
    + rewrite combine_loop_zip by lia. rewrite !drop_0, (take_ge data) by lia. simpl.
      subst pairs. by rewrite zip_with_take_l' by lia.
  - subst pairs keys data. by rewrite length_zip_with, !length_fmap.
Qed.

End Extractors.

(** ** The monad of asynchronous code *)

Lemma bind_Ok {A B} (m : M A) (f : A → M B) (a : A) :
  outcome m = Ok a → m ≫= f = Run (effects m ++ effects (f a)) (outcome (f a)).
Proof. intros H. unfold mbind, M_bind. by rewrite H. Qed.

Lemma bind_Throw {A B} (m : M A) (f : A → M B) (e : JsError) :
  outcome m = Throw e → m ≫= f = Run (effects m) (Throw e).
Proof. intros H. unfold mbind, M_bind. by rewrite H. Qed.

Lemma try_catch_async_Throw {A} (body : M A) (handler : JsError → M A) (e : JsError) :
  outcome body = Throw e →
  try_catch_async body handler
  = Run (effects body ++ effects (handler e)) (outcome (handler e)).
Proof. intros H. unfold try_catch_async. by rewrite H. Qed.

(** ** scrapingUtils.js *)

Section ScrapingUtils.

Variable w : World.

(** *** constructCatalogPageUrls *)

(** *** constructAllBookPageUrls *)

Lemma foldl_concat_value (pages : list string) (baseUrl : string) (lists : list (list string)) :
  Forall2 (λ page l, outcome (constructBookPageUrlsInCatalogPage w page baseUrl) = Ok l)
          pages lists →
  ∀ acc,
    foldl concat_value acc
      (settled_value <$> ((λ t, settle (outcome t)) <$>
         ((λ url, constructBookPageUrlsInCatalogPage w url baseUrl) <$> pages)))
    = acc ++ (Some <$> concat lists).
Proof.
  induction 1 as [|page l pages lists Hpage _ IH]; intros acc; csimpl.
  - by rewrite app_nil_r.
  - rewrite Hpage. simpl. rewrite IH, fmap_app. by rewrite (assoc_L (++)).
Qed.

Lemma reduce_anchors_Ok (baseUrl : string) :
  (∀ input, ∃ href, URL_href w input (Some baseUrl) = Ok href) →
  ∀ elements result, ∃ result', reduce_anchors w baseUrl elements result = Ok result'.
Proof.
  intros Hurl. induction elements as [|element elements IH]; intros result.
  - by eexists.
  - cbn [reduce_anchors]. destruct (truthy _).
    + destruct (Hurl ("catalogue/" +:+ tpl (cheerio_attr "href" [element]))) as [href ->].
      cbn [mbind Res_bind]. apply IH.
    + cbn [mbind Res_bind]. apply IH.
Qed.

(** When the [URL] constructor accepts the base URL, every catalog page
    yields a list of item URLs: the empty one if its fetch fails. *)
Lemma constructBookPageUrlsInCatalogPage_fulfils (catalogPageUrl baseUrl : string) :
  (∀ input, ∃ href, URL_href w input (Some baseUrl) = Ok href) →
  ∃ urls, outcome (constructBookPageUrlsInCatalogPage w catalogPageUrl baseUrl) = Ok urls.
Proof.
  intros Hurl. unfold constructBookPageUrlsInCatalogPage.
  destruct (getHtmlResponse w (Some catalogPageUrl)) as [html|e]; [|by eexists].
  destruct (reduce_anchors_Ok baseUrl Hurl
              (cheerio_load w html bookAnchorSelector) ([], 0)) as [result Hresult].
  erewrite bind_Ok by (simpl; exact Hresult).
  cbn [outcome]. destruct (0 <? result.2); by eexists.
Qed.

Lemma constructBookPageUrlsInCatalogPage_fetch_fails (catalogPageUrl baseUrl : string)
    (e : JsError) :
  getHtmlResponse w (Some catalogPageUrl) = Throw e →
  constructBookPageUrlsInCatalogPage w catalogPageUrl baseUrl
  = Run [Log Error (message e)] (Ok []).
Proof. intros H. unfold constructBookPageUrlsInCatalogPage. by rewrite H. Qed.

(** C7. Whatever the order [sched] in which the fetches of the catalog pages
    complete, [constructAllBookPageUrls] returns the item URLs of the pages
    concatenated in the order of the input pages. *)
Theorem constructAllBookPageUrls_order (sched : list nat) (pages : list string)
    (baseUrl : string) (lists : list (list string)) :
  Forall2 (λ page l, outcome (constructBookPageUrlsInCatalogPage w page baseUrl) = Ok l)
          pages lists →
  outcome (constructAllBookPageUrls w sched pages baseUrl) = Ok (Some <$> concat lists).
Proof.
  intros Hpages. unfold constructAllBookPageUrls.
  erewrite bind_Ok by apply allSettled_outcome. simpl.
  by rewrite (foldl_concat_value _ _ _ Hpages).
Qed.

(** *** extractBookInfo and extractAllBookInfo *)

Lemma extractBookInfo_value (bookPageUrl : JsStr) :
  record_value (settle (outcome (extractBookInfo w bookPageUrl))) = scraped w bookPageUrl.
Proof.
  unfold extractBookInfo, scraped.
  destruct (getHtmlResponse w bookPageUrl) as [html|e]; [|done].
  simpl. by destruct (parseBookInfo w _ _).
Qed.

Lemma extractBookInfo_effects (bookPageUrl : JsStr) :
  effects (extractBookInfo w bookPageUrl) = fetch_failure_log w bookPageUrl.
Proof.
  unfold extractBookInfo, fetch_failure_log.
  by destruct (getHtmlResponse w bookPageUrl).
Qed.

(** An item whose extraction throws logs nothing and leaves no record. *)
Lemma extractBookInfo_extraction_throws (bookPageUrl : JsStr) (html : string) (e : JsError) :
  getHtmlResponse w bookPageUrl = Ok html →
  parseBookInfo w (cheerio_load w html) bookPageUrl = Throw e →
  extractBookInfo w bookPageUrl = Run [] (Throw e) ∧
  scraped w bookPageUrl = None ∧ fetch_failure_log w bookPageUrl = [].
Proof.
  intros Hfetch Hparse. unfold extractBookInfo, scraped, fetch_failure_log.
  by rewrite Hfetch, Hparse.
Qed.

Lemma foldl_push_records (bookPageUrls : list JsStr) : ∀ bookInfoList,
  foldl (λ bookInfoList result,
           if truthy (record_value result)
           then bookInfoList ++ option_list (record_value result)
           else bookInfoList)
        bookInfoList
        ((λ t, settle (outcome t)) <$> (extractBookInfo w <$> bookPageUrls))
  = bookInfoList ++ omap (scraped w) bookPageUrls.
Proof.
  induction bookPageUrls as [|u us IH]; intros acc; csimpl.
  - by rewrite app_nil_r.
  - rewrite IH, extractBookInfo_value.
    destruct (scraped w u) as [r|]; simpl; [|done]. by rewrite <-(assoc_L (++)).
Qed.

(** What a run of [extractAllBookInfo] amounts to, whatever the schedule. *)
Lemma extractAllBookInfo_run (sched : list nat) (bookPageUrls : list JsStr) :
  outcome (extractAllBookInfo w sched bookPageUrls) = Ok (omap (scraped w) bookPageUrls) ∧
  effects (extractAllBookInfo w sched bookPageUrls)
    ≡ₚ concat (fetch_failure_log w <$> bookPageUrls).
Proof.
  unfold extractAllBookInfo.
  erewrite bind_Ok by apply allSettled_outcome.
  cbn [effects outcome mret M_ret]. split.
  - by rewrite foldl_push_records.
  - rewrite app_nil_r, allSettled_effects, <-list_fmap_compose.
    erewrite list_fmap_ext; [done|]. intros _ u _. apply extractBookInfo_effects.
Qed.

(** C5. Whatever the order in which the fetches complete,
    [extractAllBookInfo] resolves to the records of exactly the URLs whose
    fetch and extraction succeeded, one for each, in the order of the input,
    and the effects of the run are one error-level log entry for each URL
    whose fetch failed. In particular, for three URLs of which the first and
    the third are scraped and the second cannot be fetched, it resolves to
    the two records, and the run logs the one failure. *)
Theorem extractAllBookInfo_records (sched : list nat) :
  (∀ bookPageUrls : list JsStr,
     outcome (extractAllBookInfo w sched bookPageUrls) = Ok (omap (scraped w) bookPageUrls) ∧
     effects (extractAllBookInfo w sched bookPageUrls)
       ≡ₚ (λ url, Log Error (message (NoResponseError url)))
            <$> filter (λ url, getHtmlResponse w url = Throw (NoResponseError url))
                       bookPageUrls) ∧
  (∀ (url1 url2 url3 : JsStr) (bookInfo1 bookInfo3 : BookInfo),
     scraped w url1 = Some bookInfo1 →
     getHtmlResponse w url2 = Throw (NoResponseError url2) →
     scraped w url3 = Some bookInfo3 →
     extractAllBookInfo w sched [url1; url2; url3]
     = Run [Log Error (message (NoResponseError url2))] (Ok [bookInfo1; bookInfo3])).
Proof.
  split.
  - intros bookPageUrls.
    destruct (extractAllBookInfo_run sched bookPageUrls) as [Hout Heff].
    split; [done|].
    rewrite Heff. clear. induction bookPageUrls as [|u us IH]; [done|].
    csimpl. rewrite filter_cons. unfold fetch_failure_log at 1.
    destruct (getHtmlResponse w u) as [html|e] eqn:Hu.
    + rewrite decide_False by done. apply IH.
    + apply (getHtmlResponse_throws w) in Hu as ->.
      rewrite decide_True by done. csimpl. by rewrite IH.
  - intros u1 u2 u3 r1 r3 H1 H2 H3.
    destruct (extractAllBookInfo_run sched [u1; u2; u3]) as [Hout Heff].
    destruct (extractAllBookInfo w sched [u1; u2; u3]) as [log res]. simpl in *.
    assert (scraped w u2 = None) as H2' by (unfold scraped; by rewrite H2).
    assert (∀ u r, scraped w u = Some r → fetch_failure_log w u = []) as Hlog.
    { intros u r. unfold scraped, fetch_failure_log.
      by destruct (getHtmlResponse w u). }
    rewrite H1, H2', H3 in Hout. simpl in Hout.
    rewrite (Hlog _ _ H1), (Hlog _ _ H3) in Heff. unfold fetch_failure_log in Heff.
    rewrite H2 in Heff. simpl in Heff.
    apply Permutation_singleton_r in Heff. by subst.
Qed.

(** C10. [extractAllBookInfo] resolves also when a field extractor throws
    for one of the items: the run resolves to what it resolves to without
    that item, and with the same log entries, so that the item is left out
    without a log entry and without effect on the other items. *)
Theorem extractAllBookInfo_absorbs_throw (sched sched' : list nat)
    (before after : list JsStr) (bookPageUrl : JsStr) (html : string) (e : JsError) :
  getHtmlResponse w bookPageUrl = Ok html →
  parseBookInfo w (cheerio_load w html) bookPageUrl = Throw e →
  extractBookInfo w bookPageUrl = Run [] (Throw e) ∧
  ∃ bookData,
    outcome (extractAllBookInfo w sched (before ++ bookPageUrl :: after)) = Ok bookData ∧
    outcome (extractAllBookInfo w sched' (before ++ after)) = Ok bookData ∧
    effects (extractAllBookInfo w sched (before ++ bookPageUrl :: after))
      ≡ₚ effects (extractAllBookInfo w sched' (before ++ after)).
Proof.
  intros Hfetch Hparse.
  destruct (extractBookInfo_extraction_throws _ _ _ Hfetch Hparse) as (Hrun & Hnone & Hlog).
  split; [done|].
  destruct (extractAllBookInfo_run sched (before ++ bookPageUrl :: after)) as [Hout Heff].
  destruct (extractAllBookInfo_run sched' (before ++ after)) as [Hout' Heff'].
  exists (omap (scraped w) (before ++ after)). split_and!; [|done|].
  - rewrite Hout. f_equal. rewrite !omap_app. csimpl. by rewrite Hnone.
  - rewrite Heff, Heff', !fmap_app, !concat_app. csimpl. by rewrite Hlog.
Qed.

(** [extractAllBookInfo] never rejects. *)
Lemma extractAllBookInfo_resolves (sched : list nat) (bookPageUrls : list JsStr) :
  ∃ bookData, outcome (extractAllBookInfo w sched bookPageUrls) = Ok bookData.
Proof. eexists. apply extractAllBookInfo_run. Qed.

End ScrapingUtils.

(** ** The extension of an asset URL *)

Lemma list_ascii_of_string_app (s1 s2 : string) :
  String.list_ascii_of_string (s1 +:+ s2)
  = String.list_ascii_of_string s1 ++ String.list_ascii_of_string s2.
Proof.
  induction s1 as [|c s1 IH]; [done|].
  change (c :: String.list_ascii_of_string (s1 +:+ s2)
          = c :: (String.list_ascii_of_string s1 ++ String.list_ascii_of_string s2)).
  by rewrite IH.
Qed.

Lemma take_drop_while {A} (p : A → bool) (l : list A) :
  l = take_while p l ++ drop_while p l.
Proof.
  induction l as [|x l IH]; simpl; [done|].
  destruct (p x); simpl; [by rewrite <-IH|done].
Qed.

Lemma take_while_all {A} (p : A → bool) (l : list A) : forallb p (take_while p l) = true.
Proof.
  induction l as [|x l IH]; simpl; [done|].
  destruct (p x) eqn:Hx; simpl; [by rewrite Hx|done].
Qed.

Lemma drop_while_head {A} (p : A → bool) (l : list A) (x : A) (rest : list A) :
  drop_while p l = x :: rest → p x = false.
Proof.
  induction l as [|y l IH]; simpl; [done|].
  destruct (p y) eqn:Hy; [done|]. by intros [= -> _].
Qed.

Lemma forallb_rev {A} (p : A → bool) (l : list A) : forallb p (rev l) = forallb p l.
Proof.
  induction l as [|x l IH]; simpl; [done|].
  rewrite forallb_app, IH. simpl. by destruct (p x), (forallb p l).
Qed.

(** A string splits into a part that is empty or ends in a character that
    is not alphanumeric, and its trailing alphanumeric run. *)
Lemma trailing_split (l : list ascii) :
  let run := rev (take_while is_alnum_i (rev l)) in
  let front := rev (drop_while is_alnum_i (rev l)) in
  l = front ++ run ∧ forallb is_alnum_i run = true ∧
  (front = [] ∨ ∃ front' c, front = front' ++ [c] ∧ is_alnum_i c = false).
Proof.
  intros run front. split_and!.
  - subst run front. rewrite <-rev_app_distr, <-take_drop_while. by rewrite rev_involutive.
  - subst run. by rewrite forallb_rev, take_while_all.
  - subst front. destruct (drop_while is_alnum_i (rev l)) as [|c rest] eqn:Hd.
    + by left.
    + right. exists (rev rest), c. split; [done|]. by eapply drop_while_head.
Qed.

Lemma re_extension_run (run : list ascii) :
  run ≠ [] → forallb is_alnum_i run = true → re_extension run = true.
Proof.
  destruct run as [|c run]; [done|]. intros _ Hall. unfold re_extension, plus.
  rewrite Hall. simpl in Hall. apply andb_prop in Hall as [Hc _].
  destruct (Ascii.eqb_spec c ".") as [->|_]; [done|done].
Qed.

Lemma re_extension_front (front' : list ascii) (c : ascii) (run : list ascii) :
  is_alnum_i c = false → ∀ front1 front2,
  front' ++ [c] = front1 ++ front2 → front2 ≠ [] →
  re_extension (front2 ++ run) = false.
Proof.
  intros Hc front1 front2 Hsplit Hne.
  assert (forallb is_alnum_i (front2 ++ run) = false) as Hall.
  { destruct (forallb is_alnum_i (front2 ++ run)) eqn:Hall; [|done].
    rewrite forallb_app in Hall. apply andb_prop in Hall as [Hall _].
    assert (c ∈ front2) as Hin.
    { destruct (exists_last Hne) as (front2' & c' & ->).
      rewrite (assoc_L (++)) in Hsplit. apply app_inj_tail in Hsplit as [_ <-].
      apply elem_of_app. right. by apply list_elem_of_singleton. }
    rewrite forallb_forall in Hall. apply list_elem_of_In, Hall in Hin. congruence. }
  destruct front2 as [|x front2]; [done|]. unfold re_extension, plus.
  change ((x :: front2) ++ run) with (x :: (front2 ++ run)) in Hall |- *.
  rewrite Hall. by rewrite andb_false_r.
Qed.

Lemma search_to_end_run (front run : list ascii) :
  run ≠ [] → forallb is_alnum_i run = true →
  (front = [] ∨ ∃ front' c, front = front' ++ [c] ∧ is_alnum_i c = false) →
  search_to_end re_extension (front ++ run) = Some run.
Proof.
  intros Hne Hall [->|(front' & c & -> & Hc)].
  - simpl. destruct run as [|x run]; [done|].
    cbn [search_to_end]. by rewrite (re_extension_run (x :: run)).
  - pose proof (re_extension_front front' c run Hc) as Hfront.
    revert Hfront. generalize (front' ++ [c]). intros front.
    induction front as [|x front IH]; intros Hfront.
    + simpl. destruct run as [|y run]; [done|].
      cbn [search_to_end]. by rewrite (re_extension_run (y :: run)).
    + change ((x :: front) ++ run) with (x :: (front ++ run)).
      cbn [search_to_end].
      change (x :: (front ++ run)) with ((x :: front) ++ run).
      rewrite (Hfront [] (x :: front)) by done.
      apply IH. intros front1 front2 -> Hne2.
      by apply (Hfront (x :: front1) front2).
Qed.

(** The match of [/(?!\.)[a-z0-9]+$/i] is the trailing alphanumeric run. *)
Lemma js_match_extension (s : string) :
  trailing_alnum s ≠ "" → js_match re_extension s = Some (trailing_alnum s).
Proof.
  intros Hne. unfold js_match, trailing_alnum in *.
  destruct (trailing_split (String.list_ascii_of_string s)) as (Hsplit & Hall & Hfront).
  rewrite Hsplit at 1. rewrite search_to_end_run; [done| |done|done].
  intros Hnil. apply Hne. by rewrite Hnil.
Qed.

(** Without a trailing alphanumeric run there is no match. *)
Lemma search_to_end_no_run (front' : list ascii) (c : ascii) :
  is_alnum_i c = false → search_to_end re_extension (front' ++ [c]) = None.
Proof.
  intros Hc. pose proof (re_extension_front front' c [] Hc) as Hfront.
  revert Hfront. generalize (front' ++ [c]). intros front.
  induction front as [|x front IH]; intros Hfront; [done|].
  cbn [search_to_end].
  pose proof (Hfront [] (x :: front) eq_refl) as Hx.
  rewrite app_nil_r in Hx. rewrite Hx by done.
  apply IH. intros front1 front2 -> Hne. by apply (Hfront (x :: front1) front2).
Qed.

Lemma js_match_no_extension (s : string) :
  trailing_alnum s = "" → js_match re_extension s = None.
Proof.
  intros Hnil. unfold js_match, trailing_alnum in *.
  destruct (trailing_split (String.list_ascii_of_string s)) as (Hsplit & _ & Hfront).
  assert (rev (take_while is_alnum_i (rev (String.list_ascii_of_string s))) = []) as Hrun.
  { destruct (rev (take_while _ _)); [done|discriminate]. }
  rewrite Hrun, app_nil_r in Hsplit. rewrite Hsplit.
  destruct Hfront as [->|(front' & c & -> & Hc)]; [done|].
  by rewrite search_to_end_no_run.
Qed.

Lemma trailing_alnum_jpg (front : string) : trailing_alnum (front +:+ ".jpg") = "jpg".
Proof.
  unfold trailing_alnum. rewrite list_ascii_of_string_app, rev_app_distr. done.
Qed.

Section Assets.

Variable w : World.

Lemma imageFilePath_name (dataDirectory : string) (imageDatum : ImageDatum.t) :
  trailing_alnum (ImageDatum.url imageDatum) ≠ "" →
  imageFilePath w dataDirectory imageDatum
  = Ok (path_resolve w dataDirectory (asset_file_name imageDatum)).
Proof.
  intros Hne. unfold imageFilePath. by rewrite js_match_extension.
Qed.

(** For a URL without a trailing alphanumeric run the callback throws. *)
Lemma imageFilePath_no_extension (dataDirectory : string) (imageDatum : ImageDatum.t) :
  trailing_alnum (ImageDatum.url imageDatum) = "" →
  imageFilePath w dataDirectory imageDatum
  = Throw (TypeError "Cannot read properties of null (reading 'at')").
Proof.
  intros Hnil. unfold imageFilePath. by rewrite js_match_no_extension.
Qed.

Lemma mapM_Ok {A B} (f : A → Res B) (g : A → B) (l : list A) :
  Forall (λ x, f x = Ok (g x)) l → mapM f l = Ok (g <$> l).
Proof.
  induction 1 as [|x l Hx _ IH]; [done|].
  cbn [mapM]. rewrite Hx. cbn [mbind Res_bind]. rewrite IH. done.
Qed.

End Assets.

(** ** index.js *)

Section Index.

Variable w : World.

Lemma fmap_Throw {A B} (f : A → B) (m : M A) (e : JsError) :
  outcome m = Throw e → f <$> m = Run (effects m) (Throw e).
Proof. intros H. unfold fmap, M_fmap. by rewrite H. Qed.

Lemma downloadAssets_undefined (sched5 : list nat) (dataDirectory : string) :
  downloadAssets w sched5 None dataDirectory
  = Run [Log Info "Book data asset download job started"]
        (Throw (TypeError "Cannot read properties of undefined (reading 'map')")).
Proof. reflexivity. Qed.

(** C1. When [executeBookScrapingJob] throws, the error is caught at the top
    level and logged, and then [downloadAssets] is called all the same, with
    [bookData] still [undefined]: it logs that the download job started and
    throws a [TypeError] that nothing catches. *)
Theorem main_job_throws (sched2 sched3 sched5 : list nat) (e : JsError) :
  let job := executeBookScrapingJob w sched2 sched3 BASE_URL
               (DATA_DIR w +:+ "/book-data.json") in
  outcome job = Throw e →
  main w sched2 sched3 sched5
  = Run (effects job ++ [Log Error (message e)]
         ++ effects (downloadAssets w sched5 None (DATA_DIR w +:+ "/assets")))
        (outcome (downloadAssets w sched5 None (DATA_DIR w +:+ "/assets"))) ∧
  Log Info "Book data asset download job started" ∈ effects (main w sched2 sched3 sched5) ∧
  outcome (main w sched2 sched3 sched5)
  = Throw (TypeError "Cannot read properties of undefined (reading 'map')").
Proof.
  intros job Hjob.
  assert (main w sched2 sched3 sched5
          = Run (effects job ++ [Log Error (message e)]
                 ++ effects (downloadAssets w sched5 None (DATA_DIR w +:+ "/assets")))
                (outcome (downloadAssets w sched5 None (DATA_DIR w +:+ "/assets")))) as Hmain.
  { unfold main. fold job. clearbody job.
    rewrite (fmap_Throw _ job e Hjob). unfold try_catch_async. cbn [outcome effects].
    erewrite bind_Ok by reflexivity. cbn [effects].
    by rewrite <-(assoc_L (++)). }
  split_and!; [done| |].
  - rewrite Hmain, downloadAssets_undefined. cbn [effects].
    apply elem_of_app. right. apply elem_of_app. right. apply list_elem_of_singleton. done.
  - by rewrite Hmain, downloadAssets_undefined.
Qed.

End Index.

(** ** The theorems at the sample worlds *)

Lemma getHtmlResponse_non_200_witness :
  axios_get no_content (Some BASE_URL) = AxiosResponse 204 "" ∧
  204%Z ≠ 200%Z ∧
  getHtmlResponse no_content (Some BASE_URL) = Throw (NoResponseError (Some BASE_URL)) ∧
  getHtmlResponse no_content (Some BASE_URL)
    ≠ Throw (UnsuccessfulResponseError (Some BASE_URL)).
Proof.
  split; [reflexivity|]. split; [lia|].
  apply (getHtmlResponse_non_200 no_content (Some BASE_URL) 204 ""); [reflexivity | lia].
Defined.

Lemma extractBookRating_absent_witness :
  rating_token unrated_page = None ∧
  extractBookRating unrated_page = Throw (ReferenceError "bookPageUrl is not defined") ∧
  ∀ bookPageUrl, extractBookRating unrated_page ≠ Throw (BookRatingNotFoundError bookPageUrl).
Proof.
  split; [reflexivity|]. apply (extractBookRating_absent unrated_page). reflexivity.
Defined.

Lemma extractBookCategory_absent_witness :
  empty_page bookPageSelectors.breadcrumbs = [] ∧
  extractBookCategory empty_page (Some "item1") = Ok "" ∧
  extractBookCategory empty_page (Some "item1")
    ≠ Throw (BookCategoryNotFoundError (Some "item1")).
Proof.
  split; [reflexivity|].
  apply (extractBookCategory_absent empty_page (Some "item1")). reflexivity.
Defined.

(** Three header cells and two data cells give two pairs, without the third
    key. *)
Example extractBookProductInfo_ragged :
  extractBookProductInfo ragged_table
  = Ok [{| key := Some "UPC"; value := Some "abc123" |};
        {| key := Some "Price"; value := Some "51.77" |}].
Proof. reflexivity. Qed.

Example extractBookRating_book_page : extractBookRating book_page = Ok "Three".
Proof. reflexivity. Qed.

Example constructCatalogPageUrls_three_pages :
  constructCatalogPageUrls three_pages BASE_URL
  = Run [] (Ok (Some ["http://books.toscrape.com/catalogue/page-1.html";
                      "http://books.toscrape.com/catalogue/page-2.html";
                      "http://books.toscrape.com/catalogue/page-3.html"])).
Proof. reflexivity. Qed.

(** Page [B] completes before page [A]. *)
Lemma constructAllBookPageUrls_order_witness :
  Forall2 (λ page l,
             outcome (constructBookPageUrlsInCatalogPage two_catalog_pages page BASE_URL) = Ok l)
          ["A"; "B"]
          [["http://books.toscrape.com/catalogue/u1"];
           ["http://books.toscrape.com/catalogue/u2";
            "http://books.toscrape.com/catalogue/u3"]] ∧
  outcome (constructAllBookPageUrls two_catalog_pages [1; 0] ["A"; "B"] BASE_URL)
  = Ok [Some "http://books.toscrape.com/catalogue/u1";
        Some "http://books.toscrape.com/catalogue/u2";
        Some "http://books.toscrape.com/catalogue/u3"].
Proof.
  assert (Forall2 (λ page l,
             outcome (constructBookPageUrlsInCatalogPage two_catalog_pages page BASE_URL) = Ok l)
          ["A"; "B"]
          [["http://books.toscrape.com/catalogue/u1"];
           ["http://books.toscrape.com/catalogue/u2";
            "http://books.toscrape.com/catalogue/u3"]]) as Hpages.
  { repeat constructor. }
  split; [exact Hpages|].
  exact (constructAllBookPageUrls_order two_catalog_pages [1; 0] ["A"; "B"] BASE_URL _ Hpages).
Defined.

Lemma extractAllBookInfo_records_witness :
  ∃ bookInfo1 bookInfo3,
    scraped second_unreachable (Some "item1") = Some bookInfo1 ∧
    getHtmlResponse second_unreachable (Some "item2") = Throw (NoResponseError (Some "item2")) ∧
    scraped second_unreachable (Some "item3") = Some bookInfo3 ∧
    extractAllBookInfo second_unreachable [2; 1; 0] [Some "item1"; Some "item2"; Some "item3"]
    = Run [Log Error "No response received for the request item2"]
          (Ok [bookInfo1; bookInfo3]).
Proof.
  eexists _, _. split; [reflexivity|]. split; [reflexivity|]. split; [reflexivity|].
  apply (proj2 (extractAllBookInfo_records second_unreachable [2; 1; 0]));
    reflexivity.
Defined.

Lemma extractAllBookInfo_absorbs_throw_witness :
  getHtmlResponse second_untitled (Some "item2") = Ok "untitled" ∧
  parseBookInfo second_untitled (cheerio_load second_untitled "untitled") (Some "item2")
    = Throw (BookTitleNotFoundError (Some "item2")) ∧
  extractBookInfo second_untitled (Some "item2")
    = Run [] (Throw (BookTitleNotFoundError (Some "item2"))) ∧
  ∃ bookData,
    outcome (extractAllBookInfo second_untitled [1; 2; 0]
               ([Some "item1"] ++ Some "item2" :: [Some "item3"])) = Ok bookData ∧
    outcome (extractAllBookInfo second_untitled [0; 1]
               ([Some "item1"] ++ [Some "item3"])) = Ok bookData ∧
    effects (extractAllBookInfo second_untitled [1; 2; 0]
               ([Some "item1"] ++ Some "item2" :: [Some "item3"]))
      ≡ₚ effects (extractAllBookInfo second_untitled [0; 1]
                    ([Some "item1"] ++ [Some "item3"])).
Proof.
  split; [reflexivity|]. split; [reflexivity|].
  apply (extractAllBookInfo_absorbs_throw second_untitled [1; 2; 0] [0; 1]
           [Some "item1"] [Some "item3"] (Some "item2") "untitled"
           (BookTitleNotFoundError (Some "item2"))); reflexivity.
Defined.

(** The image whose URL ends in [.jpg] is written to [abc123.jpg] in the
    data directory. *)
Example downloadBookImages_abc123 :
  downloadBookImages one_image [] [abc123] "data/assets"
  = Run [Mkdir "data/assets"; Pipe "data/assets/abc123.jpg" "bytes"] (Ok [Fulfilled true]).
Proof. reflexivity. Qed.

(** The home page cannot be fetched: [catalogPageUrls] is [null]. *)
Example main_home_unreachable :
  main second_unreachable [] [] []
  = Run [Log Info "Book data scraping job started";
         Log Error "No response received for the request http://books.toscrape.com";
         Log Error "Cannot read properties of null (reading 'length')";
         Log Info "Book data asset download job started"]
        (Throw (TypeError "Cannot read properties of undefined (reading 'map')")).
Proof. reflexivity. Qed.

Lemma main_job_throws_witness :
  outcome (executeBookScrapingJob no_page_count [] [] BASE_URL
             (DATA_DIR no_page_count +:+ "/book-data.json"))
    = Throw CatalogPageCountNotFoundError ∧
  main no_page_count [] [] []
    = Run [Log Info "Book data scraping job started";
           Log Error "Could not locate or extract total catalog page count";
           Log Info "Book data asset download job started"]
          (Throw (TypeError "Cannot read properties of undefined (reading 'map')")).
Proof.
  split; [reflexivity|].
  exact (proj1 (main_job_throws no_page_count [] [] [] CatalogPageCountNotFoundError
                  eq_refl)).
Defined.

(** * Further properties *)

(** ** crawler.js: getAssetStream *)

(** X1. [getAssetStream] returns a stream exactly when [axios.get] resolves
    with status 200, and it is the stream of that response; every failure
    leaves it as [NoResponseError] for the asset URL. *)
Theorem getAssetStream_outcome (w : World) (assetUrl : JsStr) :
  (∀ stream, getAssetStream w assetUrl = Ok stream
             ↔ axios_get_stream w assetUrl = AxiosResponse 200 stream) ∧
  (∀ e, getAssetStream w assetUrl = Throw e → e = NoResponseError assetUrl).
Proof.
  unfold getAssetStream.
  destruct (axios_get_stream w assetUrl) as [e'|status data]; simpl.
  - split; [|congruence]. intros stream. split; discriminate.
  - destruct (Z.eqb_spec status 200) as [->|Hne]; simpl.
    + split; [|discriminate]. intros stream. split; congruence.
    + split; [|congruence]. intros stream. split; [discriminate|]. congruence.
Qed.

(** ** dataExtractors.js *)

Section MoreExtractors.

Implicit Types (doc : Document) (bookPageUrl : JsStr).

Lemma extractBookTitle_run doc bookPageUrl :
  extractBookTitle doc bookPageUrl =
    match doc bookPageSelectors.title with
    | [] => Throw (BookTitleNotFoundError bookPageUrl)
    | heading :: _ => Ok (trim (text_content heading))
    end.
Proof.
  unfold extractBookTitle.
  destruct (doc bookPageSelectors.title) as [|heading rest]; [done|].
  rewrite <-(cheerio_text_singleton heading). reflexivity.
Qed.

(** X2. [extractBookTitle] fails with [BookTitleNotFoundError] for the page
    URL exactly when the page has no title heading; otherwise it returns the
    trimmed text of the first heading and ignores any further one. *)
Theorem extractBookTitle_outcome doc bookPageUrl :
  (doc bookPageSelectors.title = []
   ↔ extractBookTitle doc bookPageUrl = Throw (BookTitleNotFoundError bookPageUrl)) ∧
  (∀ heading rest, doc bookPageSelectors.title = heading :: rest →
     extractBookTitle doc bookPageUrl = Ok (trim (text_content heading))).
Proof.
  rewrite extractBookTitle_run.
  destruct (doc bookPageSelectors.title) as [|heading rest]; split; try done.
  by intros ? ? [= <- _].
Qed.

(** X3. With fewer than two breadcrumb elements [extractBookCategory]
    returns the empty string: a single breadcrumb is not taken as the
    category. *)
Theorem extractBookCategory_short doc bookPageUrl :
  length (doc bookPageSelectors.breadcrumbs) < 2 →
  extractBookCategory doc bookPageUrl = Ok "".
Proof.
  intros Hlen. rewrite extractBookCategory_total.
  destruct (doc bookPageSelectors.breadcrumbs) as [|e [|e' rest]]; simpl in Hlen;
    [done|done|lia].
Qed.

Lemma search_to_end_match (R : list ascii → bool) (s m : list ascii) :
  search_to_end R s = Some m → R m = true ∧ m `suffix_of` s.
Proof.
  induction s as [|c s IH]; cbn [search_to_end].
  - destruct (R []) eqn:HR; [|done]. intros [= <-]. done.
  - destruct (R (c :: s)) eqn:HR.
    + intros [= <-]. done.
    + intros [Hm Hsuf]%IH. split; [done|]. by apply suffix_cons_r.
Qed.

(** X4. Whenever [extractBookRating] returns, the rating is one uppercase
    letter followed by one or more lowercase letters. *)
Theorem extractBookRating_shape doc (rating : string) :
  extractBookRating doc = Ok rating →
  ∃ (c : ascii) (rest : list ascii),
    String.list_ascii_of_string rating = c :: rest ∧
    is_upper c = true ∧ rest ≠ [] ∧ forallb is_lower rest = true.
Proof.
  rewrite extractBookRating_run. unfold rating_token.
  destruct (cheerio_attr "class" _) as [cls|]; simpl; [|done].
  unfold js_match.
  destruct (search_to_end re_rating _) as [m|] eqn:Hm; simpl; [|done].
  intros [= <-]. apply search_to_end_match in Hm as [Hm _].
  rewrite String.list_ascii_of_string_of_list_ascii.
  destruct m as [|c rest]; [done|]. simpl in Hm.
  apply andb_prop in Hm as [Hc Hrest]. exists c, rest. split_and!; [done|done| |].
  - by destruct rest.
  - by destruct rest.
Qed.

End MoreExtractors.

Section ImageUrl.

Variable w : World.

Lemma extractBookImageUrl_run (doc : Document) (bookPageUrl : JsStr) :
  extractBookImageUrl w doc bookPageUrl =
    match cheerio_attr "src" (doc bookPageSelectors.image) with
    | Some src =>
        match URL_href w (trim src) bookPageUrl with
        | Ok href => Ok href
        | Throw _ => Throw (BookImageURLFoundError bookPageUrl)
        end
    | None => Throw (BookImageURLFoundError bookPageUrl)
    end.
Proof.
  unfold extractBookImageUrl.
  destruct (cheerio_attr "src" _) as [src|]; simpl; [|done].
  by destruct (URL_href w (trim src) bookPageUrl).
Qed.

(** X5. [extractBookImageUrl] returns the [src] attribute of the first
    thumbnail image, trimmed and resolved against the URL of the page; when
    the image or its [src] is missing, or the [URL] constructor throws, it
    fails with [BookImageURLFoundError] for the page URL, whatever the
    constructor threw. *)
Theorem extractBookImageUrl_outcome (doc : Document) (bookPageUrl : JsStr) :
  (∀ href, extractBookImageUrl w doc bookPageUrl = Ok href ↔
     ∃ src, cheerio_attr "src" (doc bookPageSelectors.image) = Some src ∧
            URL_href w (trim src) bookPageUrl = Ok href) ∧
  (∀ e, extractBookImageUrl w doc bookPageUrl = Throw e →
        e = BookImageURLFoundError bookPageUrl).
Proof.
  rewrite extractBookImageUrl_run.
  destruct (cheerio_attr "src" _) as [src|].
  - destruct (URL_href w (trim src) bookPageUrl) as [href|e'] eqn:Hurl; split.
    + intros href'. split; [intros [= <-]; by exists src|].
      intros (src' & [= <-] & Hhref). congruence.
    + done.
    + intros href. split; [done|]. intros (src' & [= <-] & Hhref). congruence.
    + by intros e [= <-].
  - split; [|by intros e [= <-]].
    intros href. split; [done|]. by intros (src & ? & _).
Qed.

Lemma extractBookProductInfo_zip (doc : Document) :
  extractBookProductInfo doc
  = Ok (zip_with (λ k v, {| key := Some k; value := Some v |})
          ((λ e, trim (text_content e)) <$> doc bookPageSelectors.productInfoKeys)
          ((λ e, trim (text_content e)) <$> doc bookPageSelectors.productInfoData)).
Proof.
  unfold extractBookProductInfo, try_catch.
  rewrite (list_fmap_ext (λ element, trim (cheerio_text [element]))
             (λ e, trim (text_content e)) (doc bookPageSelectors.productInfoKeys))
    by (intros; by rewrite cheerio_text_singleton).
  rewrite (list_fmap_ext (λ element, trim (cheerio_text [element]))
             (λ e, trim (text_content e)) (doc bookPageSelectors.productInfoData))
    by (intros; by rewrite cheerio_text_singleton).
  set (keys := _ <$> doc bookPageSelectors.productInfoKeys).
  set (data := _ <$> doc bookPageSelectors.productInfoData).
  f_equal. destruct (Nat.ltb_spec (length keys) (length data)).
  - rewrite combine_loop_zip, !drop_0 by lia. simpl.
    by rewrite (take_ge keys), zip_with_take_r' by lia.
  - rewrite combine_loop_zip, !drop_0 by lia. simpl.
    by rewrite (take_ge data), zip_with_take_l' by lia.
Qed.

Lemma parseBookInfo_run (doc : Document) (bookPageUrl : JsStr) :
  parseBookInfo w doc bookPageUrl =
    category ← extractBookCategory doc bookPageUrl;
    title ← extractBookTitle doc bookPageUrl;
    rating ← extractBookRating doc;
    imageUrl ← extractBookImageUrl w doc bookPageUrl;
    Ok {| url := bookPageUrl; category := category; title := title; rating := rating;
          description := trim (cheerio_text (doc bookPageSelectors.description));
          productInfo :=
            zip_with (λ k v, {| key := Some k; value := Some v |})
              ((λ e, trim (text_content e)) <$> doc bookPageSelectors.productInfoKeys)
              ((λ e, trim (text_content e)) <$> doc bookPageSelectors.productInfoData);
          imageUrl := imageUrl |}.
Proof.
  unfold parseBookInfo.
  rewrite extractBookProductInfo_zip, extractBookDescription_total. done.
Qed.

Lemma parseBookInfo_url (doc : Document) (bookPageUrl : JsStr) (bookInfo : BookInfo) :
  parseBookInfo w doc bookPageUrl = Ok bookInfo → url bookInfo = bookPageUrl.
Proof.
  rewrite parseBookInfo_run, extractBookCategory_total. cbn [mbind Res_bind].
  destruct (extractBookTitle doc bookPageUrl); cbn [mbind Res_bind]; [|done].
  destruct (extractBookRating doc); cbn [mbind Res_bind]; [|done].
  destruct (extractBookImageUrl w doc bookPageUrl); cbn [mbind Res_bind]; [|done].
  by intros [= <-].
Qed.

(** X6. [parseBookInfo] builds a record exactly when the page has a title
    heading, a rating word and a thumbnail image whose [src] the [URL]
    constructor accepts: breadcrumbs, description and product table are not
    needed for it. *)
Theorem parseBookInfo_succeeds (doc : Document) (bookPageUrl : JsStr) :
  (∃ bookInfo, parseBookInfo w doc bookPageUrl = Ok bookInfo) ↔
  doc bookPageSelectors.title ≠ [] ∧
  is_Some (rating_token doc) ∧
  ∃ src href, cheerio_attr "src" (doc bookPageSelectors.image) = Some src ∧
              URL_href w (trim src) bookPageUrl = Ok href.
Proof.
  rewrite parseBookInfo_run, extractBookCategory_total, extractBookTitle_run,
    extractBookRating_run, extractBookImageUrl_run.
  cbn [mbind Res_bind].
  destruct (doc bookPageSelectors.title) as [|heading rest]; cbn [mbind Res_bind].
  { split; [by intros [? ?]|]. by intros [? _]. }
  destruct (rating_token doc) as [token|]; cbn [mbind Res_bind].
  2:{ split; [by intros [? ?]|]. by intros (_ & [? ?] & _). }
  destruct (cheerio_attr "src" _) as [src|]; cbn [mbind Res_bind].
  2:{ split; [by intros [? ?]|]. by intros (_ & _ & ? & ? & ? & _). }
  destruct (URL_href w (trim src) bookPageUrl) as [href|e] eqn:Hurl; cbn [mbind Res_bind].
  - split; [|by eexists]. intros _. split_and!; [done|by eexists|]. by exists src, href.
  - split; [by intros [? ?]|]. intros (_ & _ & src' & href & [= <-] & Hhref). congruence.
Qed.

(** X7. Of the errors of the six extractors only three can leave
    [parseBookInfo], decided in the order of the fields: the title error when
    the heading is missing, else a [ReferenceError] when the rating word is
    missing, else the image URL error. *)
Theorem parseBookInfo_failure (doc : Document) (bookPageUrl : JsStr) (e : JsError) :
  parseBookInfo w doc bookPageUrl = Throw e →
  (doc bookPageSelectors.title = [] ∧ e = BookTitleNotFoundError bookPageUrl) ∨
  (doc bookPageSelectors.title ≠ [] ∧ rating_token doc = None ∧
     e = ReferenceError "bookPageUrl is not defined") ∨
  (doc bookPageSelectors.title ≠ [] ∧ is_Some (rating_token doc) ∧
     e = BookImageURLFoundError bookPageUrl).
Proof.
  rewrite parseBookInfo_run, extractBookCategory_total, extractBookTitle_run,
    extractBookRating_run, extractBookImageUrl_run.
  cbn [mbind Res_bind].
  destruct (doc bookPageSelectors.title) as [|heading rest]; cbn [mbind Res_bind].
  { intros [= <-]. by left. }
  destruct (rating_token doc) as [token|]; cbn [mbind Res_bind].
  2:{ intros [= <-]. right. left. done. }
  destruct (cheerio_attr "src" _) as [src|]; cbn [mbind Res_bind].
  2:{ intros [= <-]. right. right. split_and!; [done|by eexists|done]. }
  destruct (URL_href w (trim src) bookPageUrl) as [href|e']; cbn [mbind Res_bind]; [done|].
  intros [= <-]. right. right. split_and!; [done|by eexists|done].
Qed.

(** X8. A record carries the URL of its page, and a page without
    description paragraph or without header or data cells gives a record
    with the empty description and no product information. *)
Theorem parseBookInfo_fields (doc : Document) (bookPageUrl : JsStr) (bookInfo : BookInfo) :
  parseBookInfo w doc bookPageUrl = Ok bookInfo →
  url bookInfo = bookPageUrl ∧
  (doc bookPageSelectors.description = [] → description bookInfo = "") ∧
  (doc bookPageSelectors.productInfoKeys = [] ∨ doc bookPageSelectors.productInfoData = []
   → productInfo bookInfo = []).
Proof.
  intros Hparse. split; [by eapply parseBookInfo_url|]. revert Hparse.
  rewrite parseBookInfo_run, extractBookCategory_total. cbn [mbind Res_bind].
  destruct (extractBookTitle doc bookPageUrl); cbn [mbind Res_bind]; [|done].
  destruct (extractBookRating doc); cbn [mbind Res_bind]; [|done].
  destruct (extractBookImageUrl w doc bookPageUrl); cbn [mbind Res_bind]; [|done].
  intros [= <-]. cbn [description productInfo]. split.
  - by intros ->.
  - intros [->| ->]; cbn [fmap list_fmap]; [done|]. by rewrite zip_with_nil_r.
Qed.

End ImageUrl.

(** ** scrapingUtils.js *)

Section MoreScrapingUtils.

Variable w : World.

(** X9. When the home page cannot be fetched, [constructCatalogPageUrls]
    does not throw: it logs the error of the fetch and resolves to [null]. *)
Theorem constructCatalogPageUrls_unreachable (baseUrl : string) (e : JsError) :
  getHtmlResponse w (Some baseUrl) = Throw e →
  constructCatalogPageUrls w baseUrl
  = Run [Log Error ("No response received for the request " +:+ baseUrl)] (Ok None).
Proof.
  intros Hfetch. unfold constructCatalogPageUrls.
  rewrite (getHtmlResponse_throws w _ _ Hfetch) in Hfetch. by rewrite Hfetch.
Qed.

(** X10. When the home page is fetched and the trimmed text of its
    pagination indicator does not end in a digit, [constructCatalogPageUrls]
    throws [CatalogPageCountNotFoundError], and logs nothing. *)
Theorem constructCatalogPageUrls_no_count (baseUrl html : string) :
  getHtmlResponse w (Some baseUrl) = Ok html →
  js_match re_page_count (trim (cheerio_text (cheerio_load w html paginationSelector))) = None →
  constructCatalogPageUrls w baseUrl = Run [] (Throw CatalogPageCountNotFoundError).
Proof.
  intros Hfetch Hmatch. unfold constructCatalogPageUrls. by rewrite Hfetch, Hmatch.
Qed.

Lemma page_loop_throws (baseUrl : string) (e : JsError) : ∀ todo pageNum acc,
  page_loop w baseUrl todo pageNum acc = Throw e →
  ∃ i, (pageNum ≤ i < pageNum + N.of_nat todo)%N ∧
       URL_href w (catalogue_page i) (Some baseUrl) = Throw e.
Proof.
  induction todo as [|todo IH]; intros pageNum acc; cbn [page_loop]; [done|].
  destruct (URL_href w (catalogue_page pageNum) (Some baseUrl)) as [href|e'] eqn:Hurl;
    cbn [mbind Res_bind].
  - intros (i & Hi & Hthrow)%IH. exists i. split; [lia|done].
  - intros [= ->]. exists pageNum. split; [lia|done].
Qed.

(** X11. An error that leaves [constructCatalogPageUrls] is
    [CatalogPageCountNotFoundError] or an error that the [URL] constructor
    threw for one of the pages: an error of the fetch never leaves it. *)
Theorem constructCatalogPageUrls_errors (baseUrl : string) (e : JsError) :
  outcome (constructCatalogPageUrls w baseUrl) = Throw e →
  e = CatalogPageCountNotFoundError ∨
  ∃ i, (1 ≤ i)%N ∧ URL_href w (catalogue_page i) (Some baseUrl) = Throw e.
Proof.
  unfold constructCatalogPageUrls.
  destruct (getHtmlResponse w (Some baseUrl)) as [html|e']; [|done].
  destruct (js_match re_page_count _) as [digits|]; simpl.
  - destruct (page_loop w baseUrl _ 1 []) as [urls|e'] eqn:Hloop; simpl; [done|].
    intros [= ->]. apply page_loop_throws in Hloop as (i & Hi & Hthrow).
    right. exists i. split; [lia|done].
  - intros [= <-]. by left.
Qed.

(** *** constructBookPageUrlsInCatalogPage *)

(** X13. When the catalog page cannot be fetched,
    [constructBookPageUrlsInCatalogPage] resolves to the empty list and logs
    the error of the fetch. *)
Theorem constructBookPageUrlsInCatalogPage_unreachable (catalogPageUrl baseUrl : string)
    (e : JsError) :
  getHtmlResponse w (Some catalogPageUrl) = Throw e →
  constructBookPageUrlsInCatalogPage w catalogPageUrl baseUrl
  = Run [Log Error ("No response received for the request " +:+ catalogPageUrl)] (Ok []).
Proof.
  intros Hfetch. unfold constructBookPageUrlsInCatalogPage.
  rewrite (getHtmlResponse_throws w _ _ Hfetch) in Hfetch. by rewrite Hfetch.
Qed.

(** *** constructAllBookPageUrls *)

Lemma foldl_concat_value_pages (baseUrl : string) (pages : list string) : ∀ acc,
  foldl concat_value acc
    (settled_value <$> ((λ t, settle (outcome t)) <$>
       ((λ url, constructBookPageUrlsInCatalogPage w url baseUrl) <$> pages)))
  = acc ++ concat (page_urls w baseUrl <$> pages).
Proof.
  induction pages as [|page pages IH]; intros acc; csimpl.
  - by rewrite app_nil_r.
  - rewrite IH. unfold page_urls at 2.
    destruct (outcome (constructBookPageUrlsInCatalogPage w page baseUrl));
      simpl; by rewrite <-(assoc_L (++)).
Qed.

Lemma constructAllBookPageUrls_run (sched : list nat) (pages : list string)
    (baseUrl : string) :
  outcome (constructAllBookPageUrls w sched pages baseUrl)
    = Ok (concat (page_urls w baseUrl <$> pages)) ∧
  effects (constructAllBookPageUrls w sched pages baseUrl)
    ≡ₚ concat ((λ page, effects (constructBookPageUrlsInCatalogPage w page baseUrl))
                 <$> pages).
Proof.
  unfold constructAllBookPageUrls.
  erewrite bind_Ok by apply allSettled_outcome.
  cbn [effects outcome mret M_ret]. split.
  - by rewrite foldl_concat_value_pages.
  - by rewrite app_nil_r, allSettled_effects, <-list_fmap_compose.
Qed.

(** X14. [constructAllBookPageUrls] never rejects, whatever the pages do
    and in whatever order they complete: every page adds its URLs in the
    order of the input, a page whose task rejects adds the single value
    [undefined], and the log entries of the run are those of the pages. *)
Theorem constructAllBookPageUrls_resolves (sched : list nat) (pages : list string)
    (baseUrl : string) :
  outcome (constructAllBookPageUrls w sched pages baseUrl)
    = Ok (concat (page_urls w baseUrl <$> pages)) ∧
  effects (constructAllBookPageUrls w sched pages baseUrl)
    ≡ₚ concat ((λ page, effects (constructBookPageUrlsInCatalogPage w page baseUrl))
                 <$> pages).
Proof. apply constructAllBookPageUrls_run. Qed.

(** *** extractAllBookInfo *)

(** X25. [extractBookInfo] resolves to [null], with the error logged, when
    the page cannot be fetched; when it is fetched, it logs nothing and
    settles as [parseBookInfo] does on the loaded page. *)
Theorem extractBookInfo_outcome (bookPageUrl : JsStr) :
  (∀ e, getHtmlResponse w bookPageUrl = Throw e →
        extractBookInfo w bookPageUrl
        = Run [Log Error ("No response received for the request " +:+ tpl bookPageUrl)]
              (Ok None)) ∧
  (∀ html, getHtmlResponse w bookPageUrl = Ok html →
           extractBookInfo w bookPageUrl
           = Run [] (Some <$> parseBookInfo w (cheerio_load w html) bookPageUrl)).
Proof.
  unfold extractBookInfo. split.
  - intros e Hfetch. rewrite (getHtmlResponse_throws w _ _ Hfetch) in Hfetch.
    by rewrite Hfetch.
  - intros html ->. done.
Qed.

Lemma scraped_url (bookPageUrl : JsStr) (bookInfo : BookInfo) :
  scraped w bookPageUrl = Some bookInfo → url bookInfo = bookPageUrl.
Proof.
  unfold scraped. destruct (getHtmlResponse w bookPageUrl) as [html|]; [|done].
  destruct (parseBookInfo w _ _) as [r|] eqn:Hparse; [|done].
  intros [= <-]. by eapply parseBookInfo_url.
Qed.

End MoreScrapingUtils.

(** ** commonUtils.js *)

Section CommonUtils.

Variable w : World.

Lemma writeToJsonFile_run (filePath : string) (data : list BookInfo) :
  writeToJsonFile w filePath data =
    if mkdir_ok w (path_dirname w filePath) then
      if writeFile_ok w filePath
      then Run [Mkdir (path_dirname w filePath); WriteFile filePath data] (Ok true)
      else Run [Mkdir (path_dirname w filePath)] (Throw (FileWriteError filePath))
    else Run [] (Throw (FileWriteError filePath)).
Proof.
  unfold writeToJsonFile, mkdir, writeFile.
  destruct (mkdir_ok w (path_dirname w filePath)); [|done].
  by destruct (writeFile_ok w filePath).
Qed.

(** X16. [writeToJsonFile] resolves to [true] exactly when the directory can
    be made and the file written, and the file is written exactly then; every
    failure leaves it as [FileWriteError] for the file path. *)
Theorem writeToJsonFile_outcome (filePath : string) (data : list BookInfo) :
  (outcome (writeToJsonFile w filePath data) = Ok true
   ↔ mkdir_ok w (path_dirname w filePath) = true ∧ writeFile_ok w filePath = true) ∧
  (WriteFile filePath data ∈ effects (writeToJsonFile w filePath data)
   ↔ outcome (writeToJsonFile w filePath data) = Ok true) ∧
  (∀ e, outcome (writeToJsonFile w filePath data) = Throw e → e = FileWriteError filePath).
Proof.
  rewrite writeToJsonFile_run.
  destruct (mkdir_ok w (path_dirname w filePath)); [destruct (writeFile_ok w filePath)|];
    cbn [effects outcome].
  - split_and!; [done| |done]. split; [done|]. intros _.
    apply elem_of_cons. right. by apply list_elem_of_singleton.
  - split_and!.
    + split; [done|]. by intros [_ ?].
    + split; [|done]. by intros [=]%list_elem_of_singleton.
    + by intros e [= <-].
  - split_and!.
    + split; [done|]. by intros [? _].
    + split; [|done]. by intros ?%elem_of_nil.
    + by intros e [= <-].
Qed.

Lemma downloadAsset_run (assetUrl filePath : string) :
  downloadAsset w assetUrl filePath =
    match getAssetStream w (Some assetUrl) with
    | Throw e => Run [] (Throw e)
    | Ok dataStream =>
        if mkdir_ok w (path_dirname w filePath) then
          if stream_ok w filePath
          then Run [Mkdir (path_dirname w filePath); Pipe filePath dataStream] (Ok true)
          else Run [Mkdir (path_dirname w filePath)] (Throw (FileWriteError filePath))
        else Run [] (Throw (FileWriteError filePath))
    end.
Proof.
  unfold downloadAsset, mkdir.
  destruct (getAssetStream w (Some assetUrl)) as [dataStream|e]; [|done].
  destruct (mkdir_ok w (path_dirname w filePath)); [|done].
  by destruct (stream_ok w filePath).
Qed.

(** X17. [downloadAsset] rejects with [NoResponseError] for the asset URL
    when the asset cannot be fetched, without touching the file system, and
    otherwise only with [FileWriteError] for the file path; when it
    resolves, it has made the directory of the file and piped into the file
    the stream that [axios.get] gave for the asset URL with status 200. *)
Theorem downloadAsset_outcome (assetUrl filePath : string) :
  (∀ e, getAssetStream w (Some assetUrl) = Throw e →
        downloadAsset w assetUrl filePath
        = Run [] (Throw (NoResponseError (Some assetUrl)))) ∧
  (∀ e, outcome (downloadAsset w assetUrl filePath) = Throw e →
        e = NoResponseError (Some assetUrl) ∨ e = FileWriteError filePath) ∧
  (∀ done, outcome (downloadAsset w assetUrl filePath) = Ok done →
     done = true ∧
     ∃ dataStream,
       axios_get_stream w (Some assetUrl) = AxiosResponse 200 dataStream ∧
       effects (downloadAsset w assetUrl filePath)
       = [Mkdir (path_dirname w filePath); Pipe filePath dataStream]).
Proof.
  rewrite downloadAsset_run.
  assert (∀ e, getAssetStream w (Some assetUrl) = Throw e
               → e = NoResponseError (Some assetUrl)) as Hthrow.
  { unfold getAssetStream.
    destruct (axios_get_stream w (Some assetUrl)) as [e'|status data]; simpl; [congruence|].
    destruct (status =? 200)%Z; simpl; congruence. }
  assert (∀ s, getAssetStream w (Some assetUrl) = Ok s
               → axios_get_stream w (Some assetUrl) = AxiosResponse 200 s) as Hok.
  { unfold getAssetStream.
    destruct (axios_get_stream w (Some assetUrl)) as [e'|status data]; simpl; [done|].
    destruct (Z.eqb_spec status 200) as [->|]; simpl; congruence. }
  destruct (getAssetStream w (Some assetUrl)) as [dataStream|e0].
  - split_and!; [done| |].
    + intros e. destruct (mkdir_ok w _); [destruct (stream_ok w _)|];
        cbn [outcome]; [done| |]; intros [= <-]; by right.
    + intros done. destruct (mkdir_ok w _); [destruct (stream_ok w _)|];
        cbn [outcome effects]; [|done|done].
      intros [= <-]. split; [done|]. exists dataStream. split; [by apply Hok|done].
  - rewrite (Hthrow e0 eq_refl). split_and!; try done.
    intros e [= <-]. by left.
Qed.

End CommonUtils.

(** ** scrapingUtils.js: downloadBookImages *)

Section MoreAssets.

Variable w : World.

Lemma mapM_Throw {A B} (f : A → Res B) (e : JsError) (l : list A) :
  Forall (λ x, f x = Throw e ∨ ∃ y, f x = Ok y) l →
  Exists (λ x, f x = Throw e) l →
  mapM f l = Throw e.
Proof.
  induction 1 as [|x l [Hx|[y Hx]] _ IH]; intros Hex.
  - by apply Exists_nil in Hex.
  - cbn [mapM]. by rewrite Hx.
  - cbn [mapM]. rewrite Hx. cbn [mbind Res_bind].
    apply Exists_cons in Hex as [Hex|Hex]; [congruence|]. by rewrite IH.
Qed.

(** X18. One asset URL that does not end in a letter or digit makes
    [downloadBookImages] reject as a whole, with the [TypeError] of reading
    the missing match: no result is reported for the other assets. *)
Theorem downloadBookImages_no_extension (sched : list nat) (imageData : list ImageDatum.t)
    (dataDirectory : string) :
  Exists (λ imageDatum, trailing_alnum (ImageDatum.url imageDatum) = "") imageData →
  outcome (downloadBookImages w sched imageData dataDirectory)
  = Throw (TypeError "Cannot read properties of null (reading 'at')").
Proof.
  intros Hex. unfold downloadBookImages. erewrite bind_Throw; [done|]. simpl.
  apply mapM_Throw.
  - apply Forall_forall. intros d _. unfold imageFilePath.
    destruct (js_match re_extension (ImageDatum.url d)); [right|left]; by eexists.
  - eapply Exists_impl; [exact Hex|]. intros d Hd. simpl.
    by rewrite imageFilePath_no_extension.
Qed.

Lemma downloadBookImages_run (sched : list nat) (imageData : list ImageDatum.t)
    (dataDirectory : string) :
  Forall (λ imageDatum, trailing_alnum (ImageDatum.url imageDatum) ≠ "") imageData →
  outcome (downloadBookImages w sched imageData dataDirectory)
  = Ok ((λ imageDatum,
           settle (outcome (downloadAsset w (ImageDatum.url imageDatum)
                              (path_resolve w dataDirectory (asset_file_name imageDatum)))))
          <$> imageData).
Proof.
  intros Hext. unfold downloadBookImages.
  erewrite bind_Ok.
  2:{ simpl. apply (mapM_Ok _ (λ imageDatum,
        downloadAsset w (ImageDatum.url imageDatum)
          (path_resolve w dataDirectory (asset_file_name imageDatum)))).
      eapply Forall_impl; [exact Hext|]. intros d Hd. simpl.
      by rewrite imageFilePath_name. }
  cbn [outcome]. by rewrite allSettled_outcome, <-list_fmap_compose.
Qed.

End MoreAssets.

(** ** index.js: downloadAssets and executeBookScrapingJob *)

Section MoreIndex.

Variable w : World.

Lemma downloadAssets_defined (sched5 : list nat) (bookData : list BookInfo)
    (dataDirectory : string) :
  downloadAssets w sched5 (Some bookData) dataDirectory =
   (logger_info "Book data asset download job started";;
    imageData ← lift (mapM imageDatum_of bookData);
    logger_info ("Number of assets scheduled to be downloaded: "
                 +:+ pretty (length imageData));;
    results ← downloadBookImages w sched5 imageData dataDirectory;
    rejectedPromises ←
      foldl (λ (count : M nat) result,
               rejectedPromises ← count;
               match result with
               | Rejected reason =>
                   logger_error (message reason);; mret (S rejectedPromises)
               | Fulfilled _ => mret rejectedPromises
               end)
            (mret O) results;
    logger_info ("Number of assets successfully downloaded: "
                 +:+ pretty (length imageData - rejectedPromises));;
    logger_info ("Book data asset download job completed in "
                 +:+ duration_text (download_duration w))).
Proof. reflexivity. Qed.

Lemma imageDatum_of_cases (datum : BookInfo) :
  (Forall (λ item, key item ≠ Some "UPC") (productInfo datum) ∧
   imageDatum_of datum
   = Throw (TypeError "Cannot read properties of undefined (reading 'value')")) ∨
  ∃ imageDatum, imageDatum_of datum = Ok imageDatum.
Proof.
  unfold imageDatum_of.
  destruct (list_find _ (productInfo datum)) as [[i item]|] eqn:Hfind; simpl.
  - right. by eexists.
  - left. split; [|done]. by apply list_find_None in Hfind.
Qed.

Lemma mapM_imageDatum_of_missing_UPC (bookData : list BookInfo) :
  Exists (λ datum, Forall (λ item, key item ≠ Some "UPC") (productInfo datum)) bookData →
  mapM imageDatum_of bookData
  = Throw (TypeError "Cannot read properties of undefined (reading 'value')").
Proof.
  intros Hex. apply mapM_Throw.
  - apply Forall_forall. intros datum _.
    destruct (imageDatum_of_cases datum) as [[_ ->]|[d ->]]; [by left|right; by eexists].
  - eapply Exists_impl; [exact Hex|]. intros datum Hno. simpl.
    destruct (imageDatum_of_cases datum) as [[_ ->]|[d Hd]]; [done|].
    unfold imageDatum_of in Hd.
    destruct (list_find _ (productInfo datum)) as [[i item]|] eqn:Hfind; [|done].
    apply list_find_Some in Hfind as (Hin & Hkey & _).
    rewrite Forall_forall in Hno. destruct (Hno item); [|done].
    by eapply list_elem_of_lookup_2.
Qed.

Lemma downloadAssets_missing_UPC_run (sched5 : list nat) (bookData : list BookInfo)
    (dataDirectory : string) :
  Exists (λ datum, Forall (λ item, key item ≠ Some "UPC") (productInfo datum)) bookData →
  downloadAssets w sched5 (Some bookData) dataDirectory
  = Run [Log Info "Book data asset download job started"]
        (Throw (TypeError "Cannot read properties of undefined (reading 'value')")).
Proof.
  intros Hex. rewrite downloadAssets_defined.
  erewrite bind_Ok by reflexivity. erewrite bind_Throw; [reflexivity|]. simpl.
  by apply mapM_imageDatum_of_missing_UPC.
Qed.

(** X19. One record without a product information item whose key is
    ["UPC"] makes [downloadAssets] reject with a [TypeError] right after the
    start of the job is logged: no asset of any record is downloaded. *)
Theorem downloadAssets_missing_UPC (sched5 : list nat) (bookData : list BookInfo)
    (dataDirectory : string) :
  Exists (λ datum, Forall (λ item, key item ≠ Some "UPC") (productInfo datum)) bookData →
  downloadAssets w sched5 (Some bookData) dataDirectory
  = Run [Log Info "Book data asset download job started"]
        (Throw (TypeError "Cannot read properties of undefined (reading 'value')")).
Proof. apply downloadAssets_missing_UPC_run. Qed.

(** The [forEach] over the settled downloads: one error entry for every
    rejection, in the order of the results, and their number. *)
Lemma tally_run {A} (results : list (Settled A)) : ∀ (log : list Effect) (count : nat),
  foldl (λ (count : M nat) result,
           rejectedPromises ← count;
           match result with
           | Rejected reason =>
               logger_error (message reason);; mret (S rejectedPromises)
           | Fulfilled _ => mret rejectedPromises
           end)
        (Run log (Ok count)) results
  = Run (log ++ ((λ reason, Log Error (message reason)) <$> rejections results))
        (Ok (count + length (rejections results))).
Proof.
  induction results as [|result results IH]; intros log count.
  - simpl. by rewrite app_nil_r, Nat.add_0_r.
  - cbn [foldl]. destruct result as [v|reason].
    + erewrite bind_Ok by reflexivity. cbn [effects outcome mret M_ret].
      rewrite app_nil_r, IH. done.
    + erewrite bind_Ok by reflexivity. cbn [effects outcome].
      erewrite (bind_Ok (logger_error _)) by reflexivity.
      cbn [effects outcome logger_error mret M_ret]. rewrite app_nil_r, IH.
      unfold rejections. csimpl. rewrite <-(assoc_L (++)). do 2 f_equal. lia.
Qed.

(** X20. When every record has a ["UPC"] item and every image URL ends in
    a letter or digit, [downloadAssets] resolves whatever the downloads do:
    after the downloads it logs one error for each rejected download, in the
    order of the records, and reports the number of records less the number
    of rejections as downloaded. *)
Theorem downloadAssets_tally (sched5 : list nat) (bookData : list BookInfo)
    (imageData : list ImageDatum.t) (dataDirectory : string) :
  mapM imageDatum_of bookData = Ok imageData →
  Forall (λ imageDatum, trailing_alnum (ImageDatum.url imageDatum) ≠ "") imageData →
  let failed :=
    rejections ((λ imageDatum,
                   settle (outcome (downloadAsset w (ImageDatum.url imageDatum)
                                      (path_resolve w dataDirectory
                                         (asset_file_name imageDatum)))))
                  <$> imageData) in
  downloadAssets w sched5 (Some bookData) dataDirectory
  = Run ([Log Info "Book data asset download job started";
          Log Info ("Number of assets scheduled to be downloaded: "
                    +:+ pretty (length imageData))]
         ++ effects (downloadBookImages w sched5 imageData dataDirectory)
         ++ ((λ reason, Log Error (message reason)) <$> failed)
         ++ [Log Info ("Number of assets successfully downloaded: "
                       +:+ pretty (length imageData - length failed));
             Log Info ("Book data asset download job completed in "
                       +:+ duration_text (download_duration w))])
        (Ok tt).
Proof.
  intros HimageData Hext failed. rewrite downloadAssets_defined.
  erewrite bind_Ok by reflexivity.
  erewrite bind_Ok by (simpl; exact HimageData).
  erewrite bind_Ok by reflexivity.
  erewrite bind_Ok by (by apply downloadBookImages_run).
  rewrite (tally_run _ [] 0). fold failed.
  erewrite bind_Ok by reflexivity.
  erewrite bind_Ok by reflexivity.
  cbn [effects outcome logger_info lift app Nat.add].
  f_equal; by rewrite <-?(assoc_L (++)).
Qed.

(** X21. When the home page cannot be fetched, [executeBookScrapingJob]
    rejects: the [null] that [constructCatalogPageUrls] resolves to is read
    for its length, which throws a [TypeError] after the start of the job and
    the error of the fetch are logged. *)
Theorem executeBookScrapingJob_unreachable (sched2 sched3 : list nat)
    (baseUrl outputFilePath : string) (e : JsError) :
  getHtmlResponse w (Some baseUrl) = Throw e →
  executeBookScrapingJob w sched2 sched3 baseUrl outputFilePath
  = Run [Log Info "Book data scraping job started";
         Log Error ("No response received for the request " +:+ baseUrl)]
        (Throw (TypeError "Cannot read properties of null (reading 'length')")).
Proof.
  intros Hfetch. unfold executeBookScrapingJob, constructCatalogPageUrls.
  rewrite (getHtmlResponse_throws w _ _ Hfetch) in Hfetch. by rewrite Hfetch.
Qed.

Lemma bind_Ok_eq {A B} (m : M A) (f : A → M B) (a : A) (l : list Effect) (r : Res B) :
  outcome m = Ok a → f a = Run l r → m ≫= f = Run (effects m ++ l) r.
Proof. intros Hm Hf. rewrite (bind_Ok m f a Hm), Hf. done. Qed.

(** One statement of an async function that resolves: [tac] proves what it
    resolves to. *)
Ltac step tac := eapply bind_Ok_eq; [tac|]; cbn beta.

Lemma persist_outcome (outputFilePath : string) (bookData : list BookInfo) :
  outcome (try_catch_async
             (writeToJsonFile w outputFilePath bookData;;
              logger_info ("The book data has been persisted to " +:+ outputFilePath))
             (λ error, logger_error (message error))) = Ok tt.
Proof.
  rewrite writeToJsonFile_run.
  destruct (mkdir_ok w _); [destruct (writeFile_ok w _)|]; reflexivity.
Qed.

Lemma persist_effects (outputFilePath : string) (bookData : list BookInfo) :
  effects (try_catch_async
             (writeToJsonFile w outputFilePath bookData;;
              logger_info ("The book data has been persisted to " +:+ outputFilePath))
             (λ error, logger_error (message error)))
  = if mkdir_ok w (path_dirname w outputFilePath) then
      if writeFile_ok w outputFilePath
      then [Mkdir (path_dirname w outputFilePath); WriteFile outputFilePath bookData;
            Log Info ("The book data has been persisted to " +:+ outputFilePath)]
      else [Mkdir (path_dirname w outputFilePath);
            Log Error ("Data could not be written to " +:+ outputFilePath)]
    else [Log Error ("Data could not be written to " +:+ outputFilePath)].
Proof.
  rewrite writeToJsonFile_run.
  destruct (mkdir_ok w _); [destruct (writeFile_ok w _)|]; reflexivity.
Qed.

(** The run of the job once the catalog pages are known. *)
Lemma executeBookScrapingJob_run (sched2 sched3 : list nat)
    (baseUrl outputFilePath : string) (catalogPageUrls : list string) :
  outcome (constructCatalogPageUrls w baseUrl) = Ok (Some catalogPageUrls) →
  let bookPageUrls := concat (page_urls w baseUrl <$> catalogPageUrls) in
  let bookData := omap (scraped w) bookPageUrls in
  executeBookScrapingJob w sched2 sched3 baseUrl outputFilePath
  = Run ([Log Info "Book data scraping job started"]
         ++ effects (constructCatalogPageUrls w baseUrl)
         ++ [Log Info ("Number of catalog page URLs found: "
                       +:+ pretty (length catalogPageUrls))]
         ++ effects (constructAllBookPageUrls w sched2 catalogPageUrls baseUrl)
         ++ [Log Info ("Number of book details page URLs found: "
                       +:+ pretty (length bookPageUrls))]
         ++ effects (extractAllBookInfo w sched3 bookPageUrls)
         ++ [Log Info ("Number of books scraped: " +:+ pretty (length bookData))]
         ++ effects (try_catch_async
                       (writeToJsonFile w outputFilePath bookData;;
                        logger_info ("The book data has been persisted to "
                                     +:+ outputFilePath))
                       (λ error, logger_error (message error)))
         ++ [Log Info ("Book data scraping job completed in "
                       +:+ duration_text (scraping_duration w))])
        (Ok bookData).
Proof.
  intros Hpages bookPageUrls bookData. unfold executeBookScrapingJob.
  etrans.
  { step ltac:(reflexivity). step ltac:(exact Hpages). step ltac:(reflexivity). step ltac:(reflexivity).
    step ltac:(apply constructAllBookPageUrls_run). step ltac:(reflexivity).
    step ltac:(apply extractAllBookInfo_run). step ltac:(reflexivity).
    step ltac:(apply persist_outcome). step ltac:(reflexivity).
    reflexivity. }
  cbn [effects outcome logger_info lift mret M_ret app].
  f_equal; by rewrite ?app_nil_r.
Qed.

(** X22. Once [constructCatalogPageUrls] has resolved to a list of catalog
    pages, [executeBookScrapingJob] resolves, whether or not the JSON file
    can be written: to the records of the item pages of these catalog pages
    whose fetch and extraction succeed, in the order of the pages. *)
Theorem executeBookScrapingJob_resolves (sched2 sched3 : list nat)
    (baseUrl outputFilePath : string) (catalogPageUrls : list string) :
  outcome (constructCatalogPageUrls w baseUrl) = Ok (Some catalogPageUrls) →
  outcome (executeBookScrapingJob w sched2 sched3 baseUrl outputFilePath)
  = Ok (omap (scraped w) (concat (page_urls w baseUrl <$> catalogPageUrls))).
Proof.
  intros Hpages.
  by rewrite (executeBookScrapingJob_run sched2 sched3 _ outputFilePath _ Hpages).
Qed.

(** X23. What [executeBookScrapingJob] writes to the output file is the
    list of records it resolves to; when the directory cannot be made or the
    file cannot be written, it writes nothing and logs [FileWriteError] for
    the output file as an error instead. *)
Theorem executeBookScrapingJob_persists (sched2 sched3 : list nat)
    (baseUrl outputFilePath : string) (catalogPageUrls : list string) :
  outcome (constructCatalogPageUrls w baseUrl) = Ok (Some catalogPageUrls) →
  let job := executeBookScrapingJob w sched2 sched3 baseUrl outputFilePath in
  ∃ bookData,
    outcome job = Ok bookData ∧
    if mkdir_ok w (path_dirname w outputFilePath) && writeFile_ok w outputFilePath
    then WriteFile outputFilePath bookData ∈ effects job
    else Log Error ("Data could not be written to " +:+ outputFilePath) ∈ effects job.
Proof.
  intros Hpages job. subst job.
  rewrite (executeBookScrapingJob_run sched2 sched3 _ outputFilePath _ Hpages).
  eexists. split; [reflexivity|]. cbn [effects]. rewrite persist_effects.
  destruct (mkdir_ok w _); [destruct (writeFile_ok w _)|]; cbn [andb];
    rewrite !elem_of_app; do 7 right; left;
    rewrite !elem_of_cons; auto.
Qed.

(** X24. When the scraping job resolves to records of which one has no
    ["UPC"] item, the run ends, after the job, in the uncaught [TypeError] of
    [downloadAssets], with the start of the download job as its last log
    entry. *)
Theorem main_missing_UPC (sched2 sched3 sched5 : list nat) (bookData : list BookInfo) :
  let job := executeBookScrapingJob w sched2 sched3 BASE_URL
               (DATA_DIR w +:+ "/book-data.json") in
  outcome job = Ok bookData →
  Exists (λ datum, Forall (λ item, key item ≠ Some "UPC") (productInfo datum)) bookData →
  outcome (main w sched2 sched3 sched5)
    = Throw (TypeError "Cannot read properties of undefined (reading 'value')") ∧
  effects (main w sched2 sched3 sched5)
    = effects job ++ [Log Info "Book data asset download job started"].
Proof.
  intros job Hjob Hex. unfold main. fold job. clearbody job.
  assert (try_catch_async (Some <$> job)
            (λ error, logger_error (message error);; mret None)
          = Run (effects job) (Ok (Some bookData))) as ->.
  { unfold try_catch_async, fmap, M_fmap. cbn [outcome effects]. by rewrite Hjob. }
  erewrite bind_Ok by reflexivity. cbn [effects].
  by rewrite (downloadAssets_missing_UPC_run _ _ _ Hex).
Qed.

End MoreIndex.

(** ** The further properties at the sample worlds *)

Lemma extractBookCategory_short_witness :
  length (home_only_page bookPageSelectors.breadcrumbs) < 2 ∧
  extractBookCategory home_only_page (Some "item1") = Ok "".
Proof.
  split; [vm_compute; lia|].
  apply (extractBookCategory_short home_only_page (Some "item1")). vm_compute. lia.
Defined.

Lemma extractBookRating_shape_witness :
  extractBookRating book_page = Ok "Three" ∧
  ∃ (c : ascii) (rest : list ascii),
    String.list_ascii_of_string "Three" = c :: rest ∧
    is_upper c = true ∧ rest ≠ [] ∧ forallb is_lower rest = true.
Proof.
  split; [reflexivity|]. apply (extractBookRating_shape book_page "Three"). reflexivity.
Defined.

Lemma parseBookInfo_failure_witness :
  parseBookInfo second_untitled untitled_page (Some "item2")
    = Throw (BookTitleNotFoundError (Some "item2")) ∧
  untitled_page bookPageSelectors.title = [].
Proof.
  split; [reflexivity|].
  destruct (parseBookInfo_failure second_untitled untitled_page (Some "item2")
              (BookTitleNotFoundError (Some "item2")) eq_refl)
    as [[Htitle _]|[(_ & _ & [=])|(_ & _ & [=])]].
  exact Htitle.
Defined.

Lemma parseBookInfo_fields_witness :
  ∃ bookInfo,
    parseBookInfo second_untitled bare_page (Some "item1") = Ok bookInfo ∧
    url bookInfo = Some "item1" ∧ description bookInfo = "" ∧ productInfo bookInfo = [] ∧
    imageUrl bookInfo = "item1/cover.jpg".
Proof.
  eexists. split; [reflexivity|].
  destruct (parseBookInfo_fields second_untitled bare_page (Some "item1") _ eq_refl)
    as (Hurl & Hdescription & HproductInfo).
  split_and!; [exact Hurl|by apply Hdescription|apply HproductInfo; by left|reflexivity].
Defined.

Lemma constructCatalogPageUrls_unreachable_witness :
  getHtmlResponse second_unreachable (Some BASE_URL) = Throw (NoResponseError (Some BASE_URL)) ∧
  constructCatalogPageUrls second_unreachable BASE_URL
  = Run [Log Error "No response received for the request http://books.toscrape.com"]
        (Ok None).
Proof.
  split; [reflexivity|].
  exact (constructCatalogPageUrls_unreachable second_unreachable BASE_URL _ eq_refl).
Defined.

Lemma constructCatalogPageUrls_no_count_witness :
  getHtmlResponse no_page_count (Some BASE_URL) = Ok "home" ∧
  constructCatalogPageUrls no_page_count BASE_URL
  = Run [] (Throw CatalogPageCountNotFoundError).
Proof.
  split; [reflexivity|].
  exact (constructCatalogPageUrls_no_count no_page_count BASE_URL "home" eq_refl eq_refl).
Defined.

Lemma constructCatalogPageUrls_errors_witness :
  outcome (constructCatalogPageUrls invalid_base BASE_URL) = Throw (TypeError "Invalid URL") ∧
  (TypeError "Invalid URL" = CatalogPageCountNotFoundError ∨
   ∃ i, (1 ≤ i)%N ∧
        URL_href invalid_base (catalogue_page i) (Some BASE_URL)
        = Throw (TypeError "Invalid URL")).
Proof.
  split; [reflexivity|].
  exact (constructCatalogPageUrls_errors invalid_base BASE_URL _ eq_refl).
Defined.

Lemma constructBookPageUrlsInCatalogPage_unreachable_witness :
  getHtmlResponse two_catalog_pages (Some "C") = Throw (NoResponseError (Some "C")) ∧
  constructBookPageUrlsInCatalogPage two_catalog_pages "C" BASE_URL
  = Run [Log Error "No response received for the request C"] (Ok []).
Proof.
  split; [reflexivity|].
  exact (constructBookPageUrlsInCatalogPage_unreachable two_catalog_pages "C" BASE_URL _
           eq_refl).
Defined.

(** A page that cannot be fetched adds nothing; a page whose links the [URL]
    constructor rejects adds [undefined]. *)
Example constructAllBookPageUrls_undefined :
  outcome (constructAllBookPageUrls two_catalog_pages [] ["A"; "C"; "B"] BASE_URL)
    = Ok [Some "http://books.toscrape.com/catalogue/u1";
          Some "http://books.toscrape.com/catalogue/u2";
          Some "http://books.toscrape.com/catalogue/u3"] ∧
  outcome (constructAllBookPageUrls (with_invalid_URL two_catalog_pages) []
             ["A"; "C"; "B"] BASE_URL)
    = Ok [None; None].
Proof. split; reflexivity. Qed.

Lemma downloadBookImages_no_extension_witness :
  Exists (λ imageDatum, trailing_alnum (ImageDatum.url imageDatum) = "")
         [abc123; no_extension] ∧
  outcome (downloadBookImages one_image [1; 0] [abc123; no_extension] "data/assets")
  = Throw (TypeError "Cannot read properties of null (reading 'at')").
Proof.
  assert (Exists (λ imageDatum, trailing_alnum (ImageDatum.url imageDatum) = "")
                 [abc123; no_extension]) as Hex.
  { apply Exists_cons_tl, Exists_cons_hd. reflexivity. }
  split; [exact Hex|].
  exact (downloadBookImages_no_extension one_image [1; 0] _ "data/assets" Hex).
Defined.

Lemma downloadAssets_missing_UPC_witness :
  Exists (λ datum, Forall (λ item, key item ≠ Some "UPC") (productInfo datum))
         [record [upc "abc123"] "http://books.toscrape.com/media/cache/fe/72.jpg";
          record [{| key := Some "Price"; value := Some "51.77" |}] "http://h/x.jpg"] ∧
  downloadAssets one_image []
    (Some [record [upc "abc123"] "http://books.toscrape.com/media/cache/fe/72.jpg";
           record [{| key := Some "Price"; value := Some "51.77" |}] "http://h/x.jpg"])
    "data/assets"
  = Run [Log Info "Book data asset download job started"]
        (Throw (TypeError "Cannot read properties of undefined (reading 'value')")).
Proof.
  assert (Exists (λ datum, Forall (λ item, key item ≠ Some "UPC") (productInfo datum))
         [record [upc "abc123"] "http://books.toscrape.com/media/cache/fe/72.jpg";
          record [{| key := Some "Price"; value := Some "51.77" |}] "http://h/x.jpg"])
    as Hex.
  { apply Exists_cons_tl, Exists_cons_hd. repeat constructor. discriminate. }
  split; [exact Hex|].
  exact (downloadAssets_missing_UPC one_image [] _ "data/assets" Hex).
Defined.

(** Two records, the image of the second of which cannot be fetched. *)
Lemma downloadAssets_tally_witness :
  downloadAssets one_image [1; 0]
    (Some [record [upc "abc123"] "http://books.toscrape.com/media/cache/fe/72.jpg";
           record [upc "def456"] "http://books.toscrape.com/media/cache/08/e9.JPG"])
    "data/assets"
  = Run [Log Info "Book data asset download job started";
         Log Info "Number of assets scheduled to be downloaded: 2";
         Mkdir "data/assets";
         Pipe "data/assets/abc123.jpg" "bytes";
         Log Error
           "No response received for the request http://books.toscrape.com/media/cache/08/e9.JPG";
         Log Info "Number of assets successfully downloaded: 1";
         Log Info "Book data asset download job completed in 0 hr(s) 0 min(s) and 1 sec(s)"]
        (Ok tt).
Proof.
  etrans.
  - apply (downloadAssets_tally one_image [1; 0] _
             [abc123; {| ImageDatum.url := "http://books.toscrape.com/media/cache/08/e9.JPG";
                         ImageDatum.identifier := Some "def456" |}] "data/assets").
    + reflexivity.
    + repeat constructor; discriminate.
  - reflexivity.
Defined.

Lemma executeBookScrapingJob_unreachable_witness :
  getHtmlResponse second_unreachable (Some BASE_URL) = Throw (NoResponseError (Some BASE_URL)) ∧
  executeBookScrapingJob second_unreachable [] [] BASE_URL "data/book-data.json"
  = Run [Log Info "Book data scraping job started";
         Log Error "No response received for the request http://books.toscrape.com"]
        (Throw (TypeError "Cannot read properties of null (reading 'length')")).
Proof.
  split; [reflexivity|].
  exact (executeBookScrapingJob_unreachable second_unreachable [] [] BASE_URL
           "data/book-data.json" _ eq_refl).
Defined.

Lemma executeBookScrapingJob_resolves_witness :
  outcome (constructCatalogPageUrls small_shop BASE_URL)
    = Ok (Some ["http://books.toscrape.com/catalogue/page-1.html"]) ∧
  ∃ bookInfo,
    outcome (executeBookScrapingJob small_shop [] [1; 0] BASE_URL "data/book-data.json")
      = Ok [bookInfo] ∧
    url bookInfo = Some "http://books.toscrape.com/catalogue/a/index.html".
Proof.
  split; [reflexivity|]. eexists. split.
  - etrans.
    + exact (executeBookScrapingJob_resolves small_shop [] [1; 0] BASE_URL
               "data/book-data.json" _ eq_refl).
    + reflexivity.
  - reflexivity.
Defined.

Lemma executeBookScrapingJob_persists_witness :
  outcome (constructCatalogPageUrls read_only_disk BASE_URL)
    = Ok (Some ["http://books.toscrape.com/catalogue/page-1.html";
                "http://books.toscrape.com/catalogue/page-2.html";
                "http://books.toscrape.com/catalogue/page-3.html"]) ∧
  ∃ bookData,
    outcome (executeBookScrapingJob read_only_disk [] [] BASE_URL "out/book-data.json")
      = Ok bookData ∧
    Log Error "Data could not be written to out/book-data.json"
      ∈ effects (executeBookScrapingJob read_only_disk [] [] BASE_URL "out/book-data.json").
Proof.
  split; [reflexivity|].
  exact (executeBookScrapingJob_persists read_only_disk [] [] BASE_URL "out/book-data.json"
           _ eq_refl).
Defined.

Lemma main_missing_UPC_witness :
  ∃ bookInfo,
    outcome (executeBookScrapingJob bare_shop [] [] BASE_URL
               (DATA_DIR bare_shop +:+ "/book-data.json")) = Ok [bookInfo] ∧
    productInfo bookInfo = [] ∧
    WriteFile "data/book-data.json" [bookInfo] ∈ effects (main bare_shop [] [] []) ∧
    outcome (main bare_shop [] [] [])
    = Throw (TypeError "Cannot read properties of undefined (reading 'value')").
Proof.
  eexists. split; [reflexivity|]. split; [reflexivity|]. split.
  - vm_compute. do 5 apply list_elem_of_further. apply list_elem_of_here.
  - refine (proj1 (main_missing_UPC bare_shop [] [] [] _ eq_refl _)).
    apply Exists_cons_hd. constructor.
Defined.

Lemma extractBookInfo_outcome_witness :
  getHtmlResponse second_unreachable (Some "item2") = Throw (NoResponseError (Some "item2")) ∧
  extractBookInfo second_unreachable (Some "item2")
  = Run [Log Error "No response received for the request item2"] (Ok None).
Proof.
  split; [reflexivity|].
  exact (proj1 (extractBookInfo_outcome second_unreachable (Some "item2")) _ eq_refl).
Defined.

(** The run of the whole pipeline on the small shop. *)
Example main_small_shop :
  main small_shop [] [] []
  = Run [Log Info "Book data scraping job started";
         Log Info "Number of catalog page URLs found: 1";
         Log Info "Number of book details page URLs found: 2";
         Log Error
           "No response received for the request http://books.toscrape.com/catalogue/b/index.html";
         Log Info "Number of books scraped: 1";
         Mkdir "data";
         WriteFile "data/book-data.json"
           [{| url := Some "http://books.toscrape.com/catalogue/a/index.html";
               category := "Poetry"; title := "A Light in the Attic"; rating := "Three";
               description := "Poems.";
               productInfo := [upc "abc123"; {| key := Some "Price"; value := Some "51.77" |}];
               imageUrl :=
                 "http://books.toscrape.com/catalogue/a/index.html/media/cache/fe/72.jpg" |}];
         Log Info "The book data has been persisted to data/book-data.json";
         Log Info "Book data scraping job completed in 0 hr(s) 0 min(s) and 1 sec(s)";
         Log Info "Book data asset download job started";
         Log Info "Number of assets scheduled to be downloaded: 1";
         Log Error
           "No response received for the request http://books.toscrape.com/catalogue/a/index.html/media/cache/fe/72.jpg";
         Log Info "Number of assets successfully downloaded: 0";
         Log Info "Book data asset download job completed in 0 hr(s) 0 min(s) and 1 sec(s)"]
        (Ok tt).
Proof. reflexivity. Qed.

(** ** The catalog page URLs and the template *)

Section CatalogPages.

Variable w : World.



End CatalogPages.



(** ** The links of a catalog page *)

Section Links.

Variable w : World.

Lemma reduce_anchors_links (baseUrl : string) (href : string → string)
    (elements : list Element) :
  Forall (λ a, truthy (cheerio_attr "href" [a]) = true →
               URL_href w ("catalogue/" +:+ tpl (cheerio_attr "href" [a])) (Some baseUrl)
               = Ok (href (tpl (cheerio_attr "href" [a])))) elements →
  ∀ result,
    reduce_anchors w baseUrl elements result
    = Ok (result.1 ++ ((λ a, href (tpl (cheerio_attr "href" [a])))
                         <$> filter (λ a, truthy (cheerio_attr "href" [a]) = true) elements),
          result.2 + length (filter (λ a, truthy (cheerio_attr "href" [a]) = false) elements)).
Proof.
  induction 1 as [|a elements Ha _ IH]; intros result.
  - cbn [reduce_anchors]. rewrite !filter_nil. cbn [fmap list_fmap length].
    rewrite app_nil_r, Nat.add_0_r. by destruct result.
  - cbn [reduce_anchors]. rewrite !filter_cons.
    destruct (truthy (cheerio_attr "href" [a])) eqn:Htruthy.
    + rewrite Ha by done. cbn [mbind Res_bind]. rewrite IH. cbn [fst snd].
      rewrite decide_True, decide_False by done. cbn [fmap list_fmap].
      by rewrite <-(assoc_L (++)).
    + cbn [mbind Res_bind]. rewrite IH. cbn [fst snd].
      rewrite decide_False, decide_True by done. cbn [length].
      do 2 f_equal. lia.
Qed.

(** X12. When the catalog page is fetched and the [URL] constructor gives a
    URL for [catalogue/{href}] against the base URL for every book anchor
    with a non-empty [href], [constructBookPageUrlsInCatalogPage] returns
    these URLs, one for every such anchor in document order, and, when some
    anchors have no [href] or an empty one, logs one warning with their
    number. *)
Theorem constructBookPageUrlsInCatalogPage_links (catalogPageUrl baseUrl html : string)
    (href : string → string) :
  getHtmlResponse w (Some catalogPageUrl) = Ok html →
  let anchors : list Element := cheerio_load w html bookAnchorSelector in
  let linked := filter (λ a, truthy (cheerio_attr "href" [a]) = true) anchors in
  let missing := length (filter (λ a, truthy (cheerio_attr "href" [a]) = false) anchors) in
  (∀ a, a ∈ linked →
        URL_href w ("catalogue/" +:+ tpl (cheerio_attr "href" [a])) (Some baseUrl)
        = Ok (href (tpl (cheerio_attr "href" [a])))) →
  constructBookPageUrlsInCatalogPage w catalogPageUrl baseUrl
  = Run (if (0 <? missing)%nat
         then [Log Warn (pretty missing +:+ " URL(s) could not be found on "
                         +:+ catalogPageUrl +:+ " due to href attribute not found")]
         else [])
        (Ok ((λ a, href (tpl (cheerio_attr "href" [a]))) <$> linked)) ∧
  length linked + missing = length anchors.
Proof.
  intros Hfetch anchors linked missing Hurl. split.
  - unfold constructBookPageUrlsInCatalogPage. rewrite Hfetch.
    erewrite bind_Ok.
    2:{ simpl. apply (reduce_anchors_links baseUrl href).
        apply Forall_forall. intros a Ha Htruthy. apply Hurl.
        subst linked. apply list_elem_of_filter. done. }
    cbn [fst snd Nat.add app effects lift]. subst linked missing anchors.
    destruct (0 <? _)%nat; reflexivity.
  - subst linked missing. generalize anchors. clear. intros l.
    induction l as [|a l IH]; [done|].
    rewrite !filter_cons. destruct (truthy (cheerio_attr "href" [a])).
    + rewrite decide_True, decide_False by done. simpl. lia.
    + rewrite decide_False, decide_True by done. simpl. lia.
Qed.

End Links.

Lemma constructBookPageUrlsInCatalogPage_links_witness :
  getHtmlResponse broken_link_site (Some "http://books.toscrape.com/catalogue/page-1.html")
    = Ok "a" ∧
  constructBookPageUrlsInCatalogPage broken_link_site
    "http://books.toscrape.com/catalogue/page-1.html" BASE_URL
  = Run [Log Warn "1 URL(s) could not be found on http://books.toscrape.com/catalogue/page-1.html due to href attribute not found"]
        (Ok ["http://books.toscrape.com/catalogue/u1_1/index.html";
             "http://books.toscrape.com/catalogue/u3_3/index.html"]).
Proof.
  split; [reflexivity|].
  refine (proj1 (constructBookPageUrlsInCatalogPage_links broken_link_site
                   "http://books.toscrape.com/catalogue/page-1.html" BASE_URL "a"
                   (λ link, BASE_URL +:+ "/catalogue/" +:+ link) eq_refl _)).
  intros a Ha. vm_compute in Ha.
  apply elem_of_cons in Ha as [->|Ha]; [reflexivity|].
  apply list_elem_of_singleton in Ha as ->. reflexivity.
Defined.

(** A link that the [URL] constructor rejects makes the page reject. *)
Example constructBookPageUrlsInCatalogPage_rejects :
  constructBookPageUrlsInCatalogPage (with_invalid_URL two_catalog_pages) "A" BASE_URL
  = Run [] (Throw (TypeError "Invalid URL")).
Proof. reflexivity. Qed.

(** ** The URLs of the records *)

Section RecordUrls.

Variable w : World.

Lemma omap_scraped_filter (bookPageUrls : list JsStr) :
  url <$> omap (scraped w) bookPageUrls
  = filter (λ bookPageUrl, is_Some (scraped w bookPageUrl)) bookPageUrls.
Proof.
  induction bookPageUrls as [|u us IH]; [done|].
  rewrite filter_cons. destruct (scraped w u) as [r|] eqn:Hr.
  - rewrite decide_True by by eexists. csimpl. rewrite Hr. csimpl.
    by rewrite (scraped_url w _ _ Hr), IH.
  - rewrite decide_False by by intros [? ?]. csimpl. by rewrite Hr.
Qed.

(** X15. The records that [extractAllBookInfo] resolves to carry the URLs
    of their pages: their URLs are exactly the URLs of the input whose fetch
    and extraction succeed, in the order of the input, so that there are
    never more records than URLs. *)
Theorem extractAllBookInfo_urls (sched : list nat) (bookPageUrls : list JsStr) :
  ∃ bookData,
    outcome (extractAllBookInfo w sched bookPageUrls) = Ok bookData ∧
    url <$> bookData
      = filter (λ bookPageUrl, is_Some (scraped w bookPageUrl)) bookPageUrls ∧
    length bookData ≤ length bookPageUrls.
Proof.
  exists (omap (scraped w) bookPageUrls).
  pose proof (omap_scraped_filter bookPageUrls) as Hurls.
  split_and!; [apply extractAllBookInfo_run|done|].
  rewrite <-(length_fmap url), Hurls. apply length_filter.
Qed.

End RecordUrls.

(** ** The file names of the assets *)

Section FileNames.

Variable w : World.

Lemma downloadBookImages_effects (sched : list nat) (imageData : list ImageDatum.t)
    (dataDirectory : string) :
  Forall (λ imageDatum, trailing_alnum (ImageDatum.url imageDatum) ≠ "") imageData →
  effects (downloadBookImages w sched imageData dataDirectory)
  ≡ₚ concat ((λ imageDatum,
                effects (downloadAsset w (ImageDatum.url imageDatum)
                           (path_resolve w dataDirectory (asset_file_name imageDatum))))
               <$> imageData).
Proof.
  intros Hext. unfold downloadBookImages.
  erewrite bind_Ok.
  2:{ simpl. apply (mapM_Ok _ (λ imageDatum,
        downloadAsset w (ImageDatum.url imageDatum)
          (path_resolve w dataDirectory (asset_file_name imageDatum)))).
      eapply Forall_impl; [exact Hext|]. intros d Hd. simpl.
      by rewrite imageFilePath_name. }
  cbn [effects lift app]. by rewrite allSettled_effects, <-list_fmap_compose.
Qed.

Lemma elem_of_concat {A} (x : A) (l : list A) (ls : list (list A)) :
  x ∈ l → l ∈ ls → x ∈ concat ls.
Proof.
  intros Hx Hl. induction ls as [|l' ls IH]; [by apply elem_of_nil in Hl|].
  simpl. apply elem_of_app. apply elem_of_cons in Hl as [<-|Hl]; auto.
Qed.

Lemma downloadAsset_writes (assetUrl filePath : string) (dataStream : Stream) :
  axios_get_stream w (Some assetUrl) = AxiosResponse 200 dataStream →
  mkdir_ok w (path_dirname w filePath) = true →
  stream_ok w filePath = true →
  downloadAsset w assetUrl filePath
  = Run [Mkdir (path_dirname w filePath); Pipe filePath dataStream] (Ok true).
Proof.
  intros Hget Hmkdir Hstream. rewrite downloadAsset_run.
  unfold getAssetStream. rewrite Hget. simpl. by rewrite Hmkdir, Hstream.
Qed.

(** C9. [downloadBookImages] takes as extension the trailing run of
    letters and digits of the asset URL. For a descriptor whose URL has no
    such run it derives no file name: the call rejects with a [TypeError].
    When every URL of the batch has one, every asset that is fetched and can
    be stored is piped into the file [{identifier}.{extension}] of the data
    directory; for a URL ending in [.jpg] and the identifier [id] this is
    the file [id.jpg], and the download is reported as fulfilled. *)
Theorem downloadBookImages_extension (sched : list nat) (dataDirectory : string) :
  (∀ imageDatum : ImageDatum.t,
     trailing_alnum (ImageDatum.url imageDatum) = "" →
     downloadBookImages w sched [imageDatum] dataDirectory
     = Run [] (Throw (TypeError "Cannot read properties of null (reading 'at')"))) ∧
  (∀ (imageData : list ImageDatum.t) (imageDatum : ImageDatum.t) (dataStream : Stream),
     Forall (λ imageDatum, trailing_alnum (ImageDatum.url imageDatum) ≠ "") imageData →
     imageDatum ∈ imageData →
     let filePath :=
       path_resolve w dataDirectory
         (tpl (ImageDatum.identifier imageDatum) +:+ "."
          +:+ trailing_alnum (ImageDatum.url imageDatum)) in
     axios_get_stream w (Some (ImageDatum.url imageDatum)) = AxiosResponse 200 dataStream →
     mkdir_ok w (path_dirname w filePath) = true →
     stream_ok w filePath = true →
     Pipe filePath dataStream ∈ effects (downloadBookImages w sched imageData dataDirectory)) ∧
  (∀ (front id : string) (dataStream : Stream),
     let filePath := path_resolve w dataDirectory (id +:+ ".jpg") in
     axios_get_stream w (Some (front +:+ ".jpg")) = AxiosResponse 200 dataStream →
     mkdir_ok w (path_dirname w filePath) = true →
     stream_ok w filePath = true →
     let run := downloadBookImages w sched
                  [{| ImageDatum.url := front +:+ ".jpg"; ImageDatum.identifier := Some id |}]
                  dataDirectory in
     outcome run = Ok [Fulfilled true] ∧ Pipe filePath dataStream ∈ effects run).
Proof.
  assert (∀ (imageData : list ImageDatum.t) (imageDatum : ImageDatum.t) (dataStream : Stream),
     Forall (λ imageDatum, trailing_alnum (ImageDatum.url imageDatum) ≠ "") imageData →
     imageDatum ∈ imageData →
     let filePath := path_resolve w dataDirectory (asset_file_name imageDatum) in
     axios_get_stream w (Some (ImageDatum.url imageDatum)) = AxiosResponse 200 dataStream →
     mkdir_ok w (path_dirname w filePath) = true →
     stream_ok w filePath = true →
     Pipe filePath dataStream ∈ effects (downloadBookImages w sched imageData dataDirectory))
    as Hwrites.
  { intros imageData d dataStream Hext Hin filePath Hget Hmkdir Hstream.
    rewrite (downloadBookImages_effects _ _ _ Hext).
    apply (elem_of_concat _ [Mkdir (path_dirname w filePath); Pipe filePath dataStream]);
      [apply elem_of_cons; right; by apply list_elem_of_singleton|].
    apply list_elem_of_fmap. exists d. split; [|done]. subst filePath.
    by rewrite (downloadAsset_writes _ _ _ Hget Hmkdir Hstream). }
  split_and!.
  - intros d Hnil. unfold downloadBookImages. erewrite bind_Throw; [done|].
    simpl. by rewrite imageFilePath_no_extension.
  - exact Hwrites.
  - intros front id dataStream filePath Hget Hmkdir Hstream run.
    set (d := {| ImageDatum.url := front +:+ ".jpg"; ImageDatum.identifier := Some id |}).
    assert (Forall (λ imageDatum, trailing_alnum (ImageDatum.url imageDatum) ≠ "") [d])
      as Hext.
    { repeat constructor. simpl. by rewrite trailing_alnum_jpg. }
    assert (asset_file_name d = id +:+ ".jpg") as Hname.
    { unfold asset_file_name. simpl. by rewrite trailing_alnum_jpg. }
    split.
    + subst run. rewrite (downloadBookImages_run _ _ _ _ Hext). cbn [fmap list_fmap].
      rewrite Hname. subst filePath. cbn [ImageDatum.url d].
      by rewrite (downloadAsset_writes _ _ _ Hget Hmkdir Hstream).
    + subst run filePath. rewrite <-Hname.
      apply (Hwrites [d] d dataStream Hext); [by apply list_elem_of_singleton|done|..];
        by rewrite Hname.
Qed.

End FileNames.

(** The descriptor with the URL [http://books.toscrape.com/] has no file
    name; the image [.../72.jpg] with the identifier [abc123] is stored as
    [abc123.jpg]. *)
Lemma downloadBookImages_extension_witness :
  trailing_alnum (ImageDatum.url no_extension) = "" ∧
  downloadBookImages one_image [0] [no_extension] "data/assets"
    = Run [] (Throw (TypeError "Cannot read properties of null (reading 'at')")) ∧
  outcome (downloadBookImages one_image [0] [abc123] "data/assets") = Ok [Fulfilled true] ∧
  Pipe "data/assets/abc123.jpg" "bytes"
    ∈ effects (downloadBookImages one_image [0] [abc123] "data/assets").
Proof.
  destruct (downloadBookImages_extension one_image [0] "data/assets")
    as (Hnone & _ & Hjpg).
  split; [reflexivity|]. split; [exact (Hnone no_extension eq_refl)|].
  exact (Hjpg "http://books.toscrape.com/media/cache/fe/72" "abc123" "bytes"
           eq_refl eq_refl eq_refl).
Defined.
